(** * Camera-calibration lab 05: chessboard generator and transform visualizer

    A shallow embedding of the two scripts of the lab,

      - [lab5.0_gen_chessboard.py]  (module [Chessboard]) and
      - [lab5.2_trf_interactive_student_copy.py]  (module [Visualizer]),

    together with the properties their specification states about them.

    Conventions.

    - Python [int] is [Z]; [//] is [Z.div] and [%] is [Z.modulo] (both floor,
      as in Python).
    - A numpy array of shape [(rows, cols)] is an [ndarray]: its two
      dimensions and a total indexing function [data row col], read through
      [pixel], which answers [None] outside the array.
    - Python [float] values (the scale factor, the affine matrix) are
      modelled by the real numbers they denote.
    - OpenCV primitives ([cv2.rectangle], [cv2.rotate],
      [cv2.getRotationMatrix2D], [cv2.warpAffine]) are written out after the
      OpenCV reference; text rendering, the image codecs and the network
      are parameters of the development. *)

From Stdlib Require Import ZArith List Bool String Ascii Lia.
From Stdlib Require Import Reals Lra.
Import ListNotations.

Local Open Scope Z_scope.

(* ================================================================= *)
(** ** Arrays *)

Module Numpy.

Record ndarray (A : Type) : Type := mk_ndarray {
  rows : Z;               (* shape[0] *)
  cols : Z;               (* shape[1] *)
  data : Z -> Z -> A      (* data row col *)
}.
Arguments mk_ndarray {A} _ _ _.
Arguments rows {A} _.
Arguments cols {A} _.
Arguments data {A} _ _ _.

Definition in_bounds {A} (a : ndarray A) (y x : Z) : bool :=
  (0 <=? y) && (y <? rows a) && (0 <=? x) && (x <? cols a).

(** [a[y, x]] for non-negative indices. *)
Definition pixel {A} (a : ndarray A) (y x : Z) : option A :=
  if in_bounds a y x then Some (data a y x) else None.

Definition shape {A} (a : ndarray A) : Z * Z := (rows a, cols a).

(** [np.full((rows, cols), v)] *)
Definition full {A} (shp : Z * Z) (v : A) : ndarray A :=
  mk_ndarray (fst shp) (snd shp) (fun _ _ => v).

(** [range(n)] *)
Definition range (n : Z) : list Z := map Z.of_nat (seq 0 (Z.to_nat n)).

End Numpy.
Import Numpy.

(* ================================================================= *)
(** ** The OpenCV primitives used by the two scripts *)

Module cv2.

Definition Point : Type := (Z * Z)%type.   (* (x, y) *)

Definition covers (pt1 pt2 : Point) (y x : Z) : bool :=
  (Z.min (fst pt1) (fst pt2) <=? x) && (x <=? Z.max (fst pt1) (fst pt2)) &&
  (Z.min (snd pt1) (snd pt2) <=? y) && (y <=? Z.max (snd pt1) (snd pt2)).

(** [cv2.rectangle(img, pt1, pt2, color, -1)]: the filled rectangle whose
    opposite vertices are [pt1] and [pt2]; both vertices belong to it.
    Writes falling outside the array are dropped by [pixel]. *)
Definition rectangle {A} (img : ndarray A) (pt1 pt2 : Point) (color : A)
  : ndarray A :=
  mk_ndarray (rows img) (cols img)
    (fun y x => if covers pt1 pt2 y x then color else data img y x).

(** [cv2.rotate(img, cv2.ROTATE_90_COUNTERCLOCKWISE)]: transpose, then
    flip around the horizontal axis. *)
Definition ROTATE_90_COUNTERCLOCKWISE : Z := 2.

Definition rotate_90_ccw {A} (img : ndarray A) : ndarray A :=
  mk_ndarray (cols img) (rows img)
    (fun i j => data img j (cols img - 1 - i)).

(** *** Colour images and affine warps *)

Definition Pixel : Type := (Z * Z * Z)%type.       (* (B, G, R), uint8 *)

(** A 2x3 matrix [[m00, m01, m02], [m10, m11, m12]]. *)
Definition Mat23 : Type := ((R * R * R) * (R * R * R))%type.

(** [cv2.getRotationMatrix2D(center, angle, scale)], [angle] in degrees:
[[
    alpha   beta   (1 - alpha) * cx - beta * cy
   -beta    alpha  beta * cx + (1 - alpha) * cy
]]
    with [alpha = scale * cos angle] and [beta = scale * sin angle].
    This is the matrix in real arithmetic.  The doubles the program
    computes are these numbers exactly when the angle is 0 or the scale
    is 0, and these numbers up to rounding otherwise; what is stated
    below about matrices at other angles is about the frames they give,
    not about their entries. *)
Definition getRotationMatrix2D (center : R * R) (angle scale : R) : Mat23 :=
  let '(cx, cy) := center in
  let a := (angle * PI / 180)%R in
  let alpha := (cos a * scale)%R in
  let beta := (sin a * scale)%R in
  ((alpha, beta, ((1 - alpha) * cx - beta * cy)%R),
   ((- beta)%R, alpha, (beta * cx + (1 - alpha) * cy)%R)).

(** [cv2.invertAffineTransform]; a singular matrix inverts to zero. *)
Definition invertAffineTransform (M : Mat23) : Mat23 :=
  let '((m00, m01, m02), (m10, m11, m12)) := M in
  let D := (m00 * m11 - m01 * m10)%R in
  let D' := if Req_EM_T D 0 then 0%R else (1 / D)%R in
  let i00 := (m11 * D')%R in
  let i01 := (m01 * - D')%R in
  let i10 := (m10 * - D')%R in
  let i11 := (m00 * D')%R in
  ((i00, i01, (- i00 * m02 - i01 * m12)%R),
   (i10, i11, (- i10 * m02 - i11 * m12)%R)).

(** Nearest integer; an exact half goes to the even neighbour. *)
Definition Rround (v : R) : Z :=
  let f := Int_part v in
  if Rlt_dec (v - IZR f) (/ 2) then f
  else if Rlt_dec (/ 2) (v - IZR f) then f + 1
  else if Z.even f then f else f + 1.

(** [BORDER_CONSTANT]: a source pixel, or [borderValue] outside. *)
Definition fetch (src : ndarray Pixel) (borderValue : Pixel) (y x : Z) : Pixel :=
  match pixel src y x with Some p => p | None => borderValue end.

Definition blend (fx fy : R) (p00 p01 p10 p11 : Z) : Z :=
  Rround ((1 - fx) * (1 - fy) * IZR p00 + fx * (1 - fy) * IZR p01
          + (1 - fx) * fy * IZR p10 + fx * fy * IZR p11)%R.

(** [INTER_LINEAR]: bilinear interpolation of the four neighbours of
    the source location [(sx, sy)].  The weights are non-negative and
    sum to one, so no saturation of the uint8 result is needed. *)
Definition sample_linear (src : ndarray Pixel) (borderValue : Pixel)
           (sx sy : R) : Pixel :=
  let x0 := Int_part sx in
  let y0 := Int_part sy in
  let fx := (sx - IZR x0)%R in
  let fy := (sy - IZR y0)%R in
  let '(b00, g00, r00) := fetch src borderValue y0 x0 in
  let '(b01, g01, r01) := fetch src borderValue y0 (x0 + 1) in
  let '(b10, g10, r10) := fetch src borderValue (y0 + 1) x0 in
  let '(b11, g11, r11) := fetch src borderValue (y0 + 1) (x0 + 1) in
  (blend fx fy b00 b01 b10 b11,
   blend fx fy g00 g01 g10 g11,
   blend fx fy r00 r01 r10 r11).

(** [cv2.warpAffine(src, M, dsize, borderMode=BORDER_CONSTANT,
    borderValue=...)] with the default [INTER_LINEAR] flag: [M] is
    inverted and [dst(x, y) = src(i00 x + i01 y + i02, i10 x + i11 y + i12)].
    [dsize] is [(width, height)]. *)
Definition warpAffine (src : ndarray Pixel) (M : Mat23) (dsize : Z * Z)
           (borderValue : Pixel) : ndarray Pixel :=
  let '((i00, i01, i02), (i10, i11, i12)) := invertAffineTransform M in
  mk_ndarray (snd dsize) (fst dsize)
    (fun y x =>
       sample_linear src borderValue
         (i00 * IZR x + i01 * IZR y + i02)%R
         (i10 * IZR x + i11 * IZR y + i12)%R).

End cv2.

(* ================================================================= *)
(** ** lab5.0_gen_chessboard.py *)

Module Chessboard.

Definition A4_WIDTH_PX : Z := 2480.
Definition A4_HEIGHT_PX : Z := 3508.
Definition BOARD_COLS : Z := 10.
Definition BOARD_ROWS : Z := 7.
Definition SQUARE_SIZE_PX : Z := 300.

Definition board_w : Z := BOARD_COLS * SQUARE_SIZE_PX.
Definition board_h : Z := BOARD_ROWS * SQUARE_SIZE_PX.

Definition WHITE : Z := 255.
Definition BLACK : Z := 0.

(** [canvas = np.full((A4_WIDTH_PX, A4_HEIGHT_PX), 255, dtype=np.uint8)] *)
Definition blank_canvas : ndarray Z := full (A4_WIDTH_PX, A4_HEIGHT_PX) WHITE.

Definition start_x : Z := (A4_HEIGHT_PX - board_w) / 2.
Definition start_y : Z := (A4_WIDTH_PX - board_h) / 2.

(** The two vertices handed to [cv2.rectangle] for square [(r, c)]. *)
Definition square_corners (r c : Z) : cv2.Point * cv2.Point :=
  let top_left_x := start_x + (c * SQUARE_SIZE_PX) in
  let top_left_y := start_y + (r * SQUARE_SIZE_PX) in
  let bottom_right_x := top_left_x + SQUARE_SIZE_PX in
  let bottom_right_y := top_left_y + SQUARE_SIZE_PX in
  ((top_left_x, top_left_y), (bottom_right_x, bottom_right_y)).

(** Body of the inner loop. *)
Definition draw_square (canvas : ndarray Z) (r c : Z) : ndarray Z :=
  if (r + c) mod 2 =? 0 then
    let '(pt1, pt2) := square_corners r c in
    cv2.rectangle canvas pt1 pt2 BLACK
  else canvas.

Definition draw_row (canvas : ndarray Z) (r : Z) : ndarray Z :=
  fold_left (fun cv c => draw_square cv r c) (range BOARD_COLS) canvas.

(** [for r in range(BOARD_ROWS): for c in range(BOARD_COLS): ...] *)
Definition draw_chessboard (canvas : ndarray Z) : ndarray Z :=
  fold_left draw_row (range BOARD_ROWS) canvas.

Definition painted_canvas : ndarray Z := draw_chessboard blank_canvas.

Definition canvas_portrait : ndarray Z := cv2.rotate_90_ccw painted_canvas.

Definition file_name : string := "A4_Chessboard_9x6.png".

(** What one run hands to [cv2.imwrite], and the two numbers it prints
    after "Image dimensions:" ([shape[1]] x [shape[0]]). *)
Record Output := mk_output {
  out_file : string;
  out_image : ndarray Z;
  out_printed_dims : Z * Z
}.

Definition create_a4_chessboard : Output :=
  mk_output file_name canvas_portrait
            (cols canvas_portrait, rows canvas_portrait).

(** The 300 x 300 cell of the board that square [(r, c)] names. *)
Definition in_square (r c y x : Z) : bool :=
  (start_x + c * SQUARE_SIZE_PX <=? x) &&
  (x <? start_x + (c + 1) * SQUARE_SIZE_PX) &&
  (start_y + r * SQUARE_SIZE_PX <=? y) &&
  (y <? start_y + (r + 1) * SQUARE_SIZE_PX).

(** Every pixel of the cell of square [(r, c)] has value [v]. *)
Definition square_is (cv : ndarray Z) (r c v : Z) : Prop :=
  forall y x, in_square r c y x = true -> pixel cv y x = Some v.

(** The squares for which the loop calls [cv2.rectangle], in order. *)
Definition painted_squares : list (Z * Z) :=
  flat_map (fun r => flat_map (fun c => if (r + c) mod 2 =? 0 then [(r, c)] else [])
                              (range BOARD_COLS))
           (range BOARD_ROWS).

(** The same calls to [cv2.rectangle], replayed from a list of squares. *)
Definition replay (canvas : ndarray Z) (squares : list (Z * Z)) : ndarray Z :=
  fold_left (fun cv rc =>
               cv2.rectangle cv (fst (square_corners (fst rc) (snd rc)))
                             (snd (square_corners (fst rc) (snd rc))) BLACK)
            squares canvas.

(** Pixel [(y, x)] lies in the rectangle drawn for square [(r, c)]. *)
Definition drawn_over (rc : Z * Z) (y x : Z) : bool :=
  cv2.covers (fst (square_corners (fst rc) (snd rc)))
             (snd (square_corners (fst rc) (snd rc))) y x.

End Chessboard.

(* ================================================================= *)
(** ** lab5.2_trf_interactive_student_copy.py *)

Module Visualizer.

Import cv2.
Local Open Scope string_scope.
Local Open Scope Z_scope.

Definition IMAGE_URL : string :=
  "https://images.unsplash.com/photo-1599420186946-7b6fb4e297f0?q=80&w=1887&auto=format&fit=crop".
Definition IMAGE_FILENAME : string := "transformation_sample.jpg".
Definition WINDOW_NAME : string := "Transformation Visualizer".

(** One entry of [TRACKBARS_CONFIG]: [(name, min_val, max_val, default_pos)]. *)
Record TrackbarConfig := mk_config {
  name : string;
  min_val : Z;
  max_val : Z;
  default_pos : Z
}.

Definition Angle : TrackbarConfig := mk_config "Angle" (-180) 180 180.
Definition Translate_X : TrackbarConfig := mk_config "Translate X" (-150) 150 150.
Definition Translate_Y : TrackbarConfig := mk_config "Translate Y" (-100) 100 100.
Definition Scale : TrackbarConfig := mk_config "Scale" 20 200 100.

Definition TRACKBARS_CONFIG : list (string * TrackbarConfig) :=
  [ ("Angle", Angle); ("Translate X", Translate_X);
    ("Translate Y", Translate_Y); ("Scale", Scale) ].

(** *** The environment: what the script gets from outside *)

Record Env := mk_env {
  Bytes : Type;
  (** [requests.get(url, ...)] followed by [raise_for_status] and the
      chunked read: the body, or a [RequestException].  The exception
      comes with its text and with what the failed transfer left in the
      file: [None] when it failed before [open] (no connection, bad
      status), [Some partial] when it failed while the body was read. *)
  http_get : string -> Bytes + (option Bytes * string);
  (** What [cv2.imwrite] puts in the file, as encoded by the writer it
      picks from the file name; [None] when nothing is written. *)
  imencode : string -> ndarray Pixel -> option Bytes;
  (** Whether [cv2.imwrite] finds a writer for the extension of the
      name.  It tells the two ways of writing nothing apart: without a
      writer [cv2.imwrite] raises [cv2.error], with one it returns
      [False]. *)
  has_writer : string -> bool;
  (** The decoder of [cv2.imread]; [None] when the bytes are no image. *)
  imdecode : Bytes -> option (ndarray Pixel);
  (** [cv2.getTextSize(text, FONT_HERSHEY_SIMPLEX, fontScale, thickness)[0]] *)
  getTextSize : string -> Z -> Z -> Z * Z;
  (** The pixels [cv2.putText(img, text, org, FONT_HERSHEY_SIMPLEX,
      fontScale, color, thickness, LINE_AA)] leaves in [img]. *)
  text_pixels : string -> Point -> Z -> Pixel -> Z ->
                ndarray Pixel -> Z -> Z -> Pixel;
  (** [f"{scale:.2f}"] *)
  format_2f : R -> string
}.

(** [cv2.putText] draws in place: the shape never changes. *)
Definition putText (env : Env) (img : ndarray Pixel) (text : string)
           (org : Point) (fontScale : Z) (color : Pixel) (thickness : Z)
  : ndarray Pixel :=
  mk_ndarray (rows img) (cols img)
             (text_pixels env text org fontScale color thickness img).

(** *** The world: files on disk and what the script did *)

Inductive Event : Type :=
| EvPrint (msg : string)
| EvHttpGet (url : string)
| EvFileWrite (filename : string)
| EvImread (filename : string)
| EvImwrite (filename : string) (img : ndarray Pixel)
| EvNamedWindow (window : string)
| EvCreateTrackbar (trackbar window : string) (value count : Z)
| EvImshow (window : string) (frame : ndarray Pixel)
| EvDestroyAllWindows.

Record World (env : Env) := mk_world {
  fs : string -> option (Bytes env);
  trace : list Event                        (* oldest first *)
}.
Arguments mk_world {env} _ _.
Arguments fs {env} _ _.
Arguments trace {env} _.

Definition IO (env : Env) (A : Type) : Type := World env -> A * World env.

Definition ret {env A} (a : A) : IO env A := fun w => (a, w).

Definition bind {env A B} (m : IO env A) (k : A -> IO env B) : IO env B :=
  fun w => let '(a, w') := m w in k a w'.

Notation "x <- m ;; k" := (bind m (fun x => k))
  (at level 61, m at next level, right associativity).
Notation "m ;;; k" := (bind m (fun _ => k))
  (at level 61, right associativity).

Definition emit {env} (e : Event) : IO env unit :=
  fun w => (tt, mk_world (fs w) (trace w ++ [e])%list).

Definition print {env} (msg : string) : IO env unit := emit (EvPrint msg).

(** [os.path.exists(filename)] *)
Definition path_exists {env} (filename : string) : IO env bool :=
  fun w => (match fs w filename with Some _ => true | None => false end, w).

Definition store {env} (filename : string) (content : Bytes env)
  : IO env unit :=
  fun w => (tt, mk_world (fun f => if String.eqb f filename
                                   then Some content else fs w f)
                         (trace w)).

(** [cv2.imread(filename)] *)
Definition imread {env} (filename : string) : IO env (option (ndarray Pixel)) :=
  emit (EvImread filename) ;;;
  fun w => (match fs w filename with
            | Some b => imdecode env b
            | None => None
            end, w).

(** How a call that may raise ends. *)
Inductive Outcome (A : Type) : Type :=
| Returned (a : A)
| Raised (err : string).
Arguments Returned {A} _.
Arguments Raised {A} _.

Definition NO_WRITER : string :=
  "cv2.error: could not find a writer for the specified extension".

(** [cv2.imwrite(filename, img)]: [True] when the file is written,
    [False] when it cannot be, [cv2.error] when no writer matches the
    name.  The Boolean is dropped by the caller. *)
Definition imwrite {env} (filename : string) (img : ndarray Pixel)
  : IO env (Outcome bool) :=
  emit (EvImwrite filename img) ;;;
  match imencode env filename img with
  | Some b => store filename b ;;; ret (Returned true)
  | None =>
      if has_writer env filename then ret (Returned false)
      else ret (Raised NO_WRITER)
  end.

Definition download_image {env} (url fallback_name : string) : IO env unit :=
  print ("Attempting to download image from " ++ url ++ "...") ;;;
  emit (EvHttpGet url) ;;;
  match http_get env url with
  | inl content =>
      emit (EvFileWrite fallback_name) ;;;
      store fallback_name content ;;;
      print ("Image downloaded successfully as " ++ fallback_name)
  | inr (left_behind, e) =>
      match left_behind with
      | Some partial =>
          emit (EvFileWrite fallback_name) ;;;
          store fallback_name partial
      | None => ret tt
      end ;;;
      print ("Could not download image: " ++ e ++
             ". Will attempt to use or create a local file.")
  end.

Definition BACKGROUND : Pixel := (47, 53, 66).
Definition TEXT_COLOR : Pixel := (255, 255, 255).

(** [np.zeros((400, 600, 3)); img[:] = (47, 53, 66)] and the caption. *)
Definition img_placeholder (env : Env) : ndarray Pixel :=
  let blank := full (400, 600) BACKGROUND in
  let text := "Sample Image" in
  let '(text_width, text_height) := getTextSize env text 2 3 in
  let text_x := (cols blank - text_width) / 2 in
  let text_y := (rows blank + text_height) / 2 in
  putText env blank text (text_x, text_y) 2 TEXT_COLOR 3.

(** [get_image] returns an image or [None]; the one exception that can
    leave it is the [cv2.error] of [cv2.imwrite]. *)
Definition get_image {env} (filename : string)
  : IO env (Outcome (option (ndarray Pixel))) :=
  present <- path_exists filename ;;
  (if negb present then download_image IMAGE_URL filename else ret tt) ;;;
  image <- imread filename ;;
  match image with
  | None =>
      print ("Failed to load '" ++ filename ++ "'. Creating a placeholder.") ;;;
      written <- imwrite filename (img_placeholder env) ;;
      match written with
      | Raised err => ret (Raised err)
      | Returned _ =>
          image <- imread filename ;;
          ret (Returned image)
      end
  | Some _ => ret (Returned image)
  end.

(** *** The window and its trackbars *)

Definition setup_trackbar (window_name : string) (config : TrackbarConfig)
  : string * Z * Z :=
  let range_max := if min_val config =? 0 then max_val config
                   else max_val config - min_val config in
  (name config, default_pos config, range_max).

(** The trackbars [setup_ui] creates: name, initial position, maximum.
    The minimum of a trackbar is 0. *)
Definition trackbars (window_name : string) : list (string * Z * Z) :=
  map (fun kv => setup_trackbar window_name (snd kv)) TRACKBARS_CONFIG.

Definition setup_ui {env} (window_name : string) : IO env unit :=
  emit (EvNamedWindow window_name) ;;;
  fold_left (fun (acc : IO env unit) '(n, value, count) =>
               acc ;;; emit (EvCreateTrackbar n window_name value count))
            (trackbars window_name) (ret tt).

(** The positions a user can give to trackbar [n]. *)
Definition reachable_position (n : string) (pos : Z) : Prop :=
  exists value count,
    In (n, value, count) (trackbars WINDOW_NAME) /\ 0 <= pos <= count.

(** *** One frame *)

(** What one turn of the loop reads: the four [getTrackbarPos] and the
    value of [cv2.waitKey(20)]. *)
Record FrameInput := mk_input {
  angle_pos : Z;
  tx_pos : Z;
  ty_pos : Z;
  scale_pos : Z;
  wait_key : Z
}.

Definition RIGID : Z := 0.
Definition SIMILARITY : Z := 1.

(** The f-string of the status caption, before formatting. *)
Inductive ModeText : Type :=
| RigidText                       (* "Mode: Rigid (Press 'm' to switch)" *)
| SimilarityText (scale : R).     (* f"Mode: Similarity (Scale: {scale:.2f}x) ..." *)

Definition text_of (env : Env) (t : ModeText) : string :=
  match t with
  | RigidText => "Mode: Rigid (Press 'm' to switch)"
  | SimilarityText scale =>
      "Mode: Similarity (Scale: " ++ format_2f env scale ++
      "x) (Press 'm' to switch)"
  end.

(** [if mode == 0: ... else: ...]: the scale handed to
    [cv2.getRotationMatrix2D] and the caption. *)
Definition scale_and_text (mode scale_pos : Z) : R * ModeText :=
  if mode =? 0 then
    (1%R, RigidText)
  else
    let scale := (IZR scale_pos / 100)%R in
    (scale, SimilarityText scale).

Definition center (image : ndarray Pixel) : R * R :=
  ((IZR (cols image) / 2)%R, (IZR (rows image) / 2)%R).

Definition transform_matrix (image : ndarray Pixel) (mode : Z)
           (inp : FrameInput) : Mat23 :=
  let angle := angle_pos inp + min_val Angle in
  let tx := tx_pos inp + min_val Translate_X in
  let ty := ty_pos inp + min_val Translate_Y in
  let scale := fst (scale_and_text mode (scale_pos inp)) in
  let '((m00, m01, m02), (m10, m11, m12)) :=
    getRotationMatrix2D (center image) (IZR angle) scale in
  ((m00, m01, (m02 + IZR tx)%R), (m10, m11, (m12 + IZR ty)%R)).

Definition transformed_image (image : ndarray Pixel) (mode : Z)
           (inp : FrameInput) : ndarray Pixel :=
  warpAffine image (transform_matrix image mode inp)
             (cols image, rows image) BACKGROUND.

(** The frame given to [cv2.imshow]: the warped image with the status
    caption drawn over it. *)
Definition shown_frame (env : Env) (image : ndarray Pixel) (mode : Z)
           (inp : FrameInput) : ndarray Pixel :=
  putText env (transformed_image image mode inp)
          (text_of env (snd (scale_and_text mode (scale_pos inp))))
          (40, 50) 2 TEXT_COLOR 2.

(** The matrix that leaves every point in place. *)
Definition IDENTITY : Mat23 := ((1, 0, 0), (0, 1, 0))%R.

(** *** Keys and the mode *)

Definition KEY_ESC : Z := 27.
Definition KEY_M : Z := Z.of_N (N_of_ascii "m").

Definition initial_mode : Z := RIGID.

(** [key = cv2.waitKey(20) & 0xFF]; [None] is [break]. *)
Definition handle_key (raw mode : Z) : option Z :=
  let key := Z.land raw 255 in
  if key =? KEY_ESC then None
  else if key =? KEY_M then Some (1 - mode)
  else Some mode.

Inductive LoopEnd : Type :=
| Exited                 (* ESC was read *)
| Polling (mode : Z).    (* the inputs ran out, the loop goes on *)

Fixpoint loop_from {env} (image : ndarray Pixel) (mode : Z)
         (inputs : list FrameInput) : IO env LoopEnd :=
  match inputs with
  | [] => ret (Polling mode)
  | inp :: rest =>
      emit (EvImshow WINDOW_NAME (shown_frame env image mode inp)) ;;;
      match handle_key (wait_key inp) mode with
      | None => ret Exited
      | Some mode' => loop_from image mode' rest
      end
  end.

Definition main_loop {env} (image : ndarray Pixel)
           (inputs : list FrameInput) : IO env LoopEnd :=
  print (String (ascii_of_nat 10)
           "Adjust sliders. Press 'm' to switch modes. Press 'ESC' to quit.") ;;;
  loop_from image initial_mode inputs.

(** The mode after a run of keys, [None] once ESC was read. *)
Fixpoint mode_after (mode : Z) (keys : list Z) : option Z :=
  match keys with
  | [] => Some mode
  | k :: rest =>
      match handle_key k mode with
      | None => None
      | Some mode' => mode_after mode' rest
      end
  end.

(** How far [main] has come when the inputs are used up. *)
Inductive MainEnd : Type :=
| Finished                 (* [main] has returned *)
| Looping (mode : Z)       (* [main_loop] is still polling *)
| Crashed (err : string).  (* an exception left [main] *)

(** The windows are closed and the last line is printed only once the
    loop has been left, which only ESC does. *)
Definition main {env} (inputs : list FrameInput) : IO env MainEnd :=
  image <- get_image IMAGE_FILENAME ;;
  match image with
  | Raised err => ret (Crashed err)
  | Returned None =>
      print "Could not load or create a sample image. Exiting." ;;;
      ret Finished
  | Returned (Some image) =>
      setup_ui WINDOW_NAME ;;;
      ended <- main_loop image inputs ;;
      match ended with
      | Polling mode => ret (Looping mode)
      | Exited =>
          emit EvDestroyAllWindows ;;;
          print "Application closed." ;;;
          ret Finished
      end
  end.

(** The largest difference between the channels of two pixels. *)
Definition channel_gap (p q : Pixel) : Z :=
  let '(b1, g1, r1) := p in
  let '(b2, g2, r2) := q in
  Z.max (Z.abs (b1 - b2)) (Z.max (Z.abs (g1 - g2)) (Z.abs (r1 - r2))).

(** [a] has the shape of [b] and no channel of a pixel of [a] is
    further than [tol] from the one of [b]: what a lossy codec gives
    back. *)
Definition close_to (tol : Z) (a b : ndarray Pixel) : Prop :=
  shape a = shape b /\
  forall y x, in_bounds b y x = true ->
              channel_gap (data a y x) (data b y x) <= tol.

Definition is_ui_event (e : Event) : bool :=
  match e with
  | EvNamedWindow _ | EvCreateTrackbar _ _ _ _ | EvImshow _ _
  | EvDestroyAllWindows => true
  | _ => false
  end.

Definition touches_outside (e : Event) : bool :=
  match e with
  | EvHttpGet _ | EvFileWrite _ | EvImwrite _ _ => true
  | _ => false
  end.

(** *** A self-contained environment to run the script in

    No network, a lossless codec that stores the array itself, a font
    that paints a solid box of 20 x 20 pixels per character above the
    text origin, and a formatter that ignores its number. *)

Definition offline_env : Env :=
  mk_env (ndarray Pixel)
         (fun _ => inr (None, "connection refused"))
         (fun _ img => Some img)
         (fun _ => true)
         (fun b => Some b)
         (fun text fontScale _ =>
            (20 * fontScale * Z.of_nat (String.length text), 20 * fontScale))
         (fun text org fontScale color _ img y x =>
            if (fst org <=? x) &&
               (x <? fst org + 20 * fontScale * Z.of_nat (String.length text)) &&
               (snd org - 20 * fontScale <? y) && (y <=? snd org)
            then color else data img y x)
         (fun _ => "?.??").

Definition empty_world : World offline_env :=
  @mk_world offline_env (fun _ => None) [].

(** An installation of OpenCV without a writer for any name, cut off
    from the network, with an empty disk. *)
Definition no_writer_env : Env :=
  mk_env (ndarray Pixel)
         (fun _ => inr (None, "connection refused"))
         (fun _ _ => None)
         (fun _ => false)
         (fun b => Some b)
         (getTextSize offline_env)
         (text_pixels offline_env)
         (format_2f offline_env).

Definition bare_disk : World no_writer_env :=
  @mk_world no_writer_env (fun _ => None) [].

(** A 2 x 3 image of distinct pixels, and a disk that holds it under
    the name the script looks for. *)
Definition sample_image : ndarray Pixel :=
  mk_ndarray 2 3 (fun y x => (10 * y + x, 100 + y, 200 + x)).

Definition sample_world : World offline_env :=
  @mk_world offline_env
            (fun f => if String.eqb f IMAGE_FILENAME then Some sample_image
                      else None) [].

End Visualizer.

(* ================================================================= *)
(** ** Vocabulary for the further properties *)

Module Further.

Import cv2 Visualizer.
Local Open Scope string_scope.
Local Open Scope Z_scope.

(** The determinant of the linear part. *)
Definition det (M : Mat23) : R :=
  let '((m00, m01, _), (m10, m11, _)) := M in (m00 * m11 - m01 * m10)%R.

(** [pos + TRACKBARS_CONFIG[key][1]]: what the loop makes of a position. *)
Definition logical_value (config : TrackbarConfig) (pos : Z) : Z :=
  pos + min_val config.

(** The low byte of a key code is [code]. *)
Definition low_byte_is (code raw : Z) : bool := Z.land raw 255 =? code.

(** How often 'm' occurs in a run of keys. *)
Definition presses_of_m (keys : list Z) : nat :=
  List.length (filter (low_byte_is KEY_M) keys).

(** Where [get_image] puts the caption of the placeholder. *)
Definition placeholder_text_org (env : Env) : Point :=
  ((600 - fst (getTextSize env "Sample Image" 2 3)) / 2,
   (400 + snd (getTextSize env "Sample Image" 2 3)) / 2).

(** The frames a list of events shows. *)
Definition frames_of (evs : list Event) : list (ndarray Pixel) :=
  flat_map (fun e => match e with EvImshow _ f => [f] | _ => [] end) evs.

(** A 2 x 2 image of distinct pixels. *)
Definition square_image : ndarray Pixel :=
  mk_ndarray 2 2 (fun y x => (10 * y + x, 100 + y, 200 + x)).

(** An environment whose files may hold something that is no image
    ([None]), and whose network serves [sample_image]. *)
Definition online_env : Env :=
  mk_env (option (ndarray Pixel))
         (fun _ => inl (Some sample_image))
         (fun _ img => Some (Some img))
         (fun _ => true)
         (fun b => b)
         (getTextSize offline_env)
         (text_pixels offline_env)
         (format_2f offline_env).


(** A disk whose sample file is no image; another file lies beside it. *)
Definition corrupt_disk : World online_env :=
  @mk_world online_env
            (fun f => if String.eqb f IMAGE_FILENAME then Some None
                      else if String.eqb f "notes.txt" then Some (Some square_image)
                      else None) [].

End Further.

(* ================================================================= *)
(** ** Properties of the chessboard generator *)

Module ChessboardSpec.

Import Chessboard.

Lemma in_range (n k : Z) : In k (range n) <-> 0 <= k < n.
Proof.
  unfold range. rewrite in_map_iff. split.
  - intros [i [<- Hi]]. apply in_seq in Hi. lia.
  - intros Hk. exists (Z.to_nat k). split; [lia|]. apply in_seq. lia.
Qed.

Lemma in_bounds_true {A} (a : ndarray A) (y x : Z) :
  in_bounds a y x = true <-> 0 <= y < rows a /\ 0 <= x < cols a.
Proof.
  unfold in_bounds. rewrite !andb_true_iff.
  rewrite !Z.leb_le, !Z.ltb_lt. lia.
Qed.

(** The loop calls [cv2.rectangle] exactly for the squares of even
    [r + c], and for each of them once. *)
Lemma in_painted_squares (r c : Z) :
  In (r, c) painted_squares <->
  0 <= r < BOARD_ROWS /\ 0 <= c < BOARD_COLS /\ (r + c) mod 2 = 0.
Proof.
  unfold painted_squares. rewrite in_flat_map. split.
  - intros [r' [Hr Hin]]. apply in_flat_map in Hin.
    destruct Hin as [c' [Hc Hin]].
    apply in_range in Hr. apply in_range in Hc.
    destruct ((r' + c') mod 2 =? 0) eqn:E; simpl in Hin; [|tauto].
    destruct Hin as [Heq|[]]. inversion Heq; subst.
    apply Z.eqb_eq in E. auto.
  - intros (Hr & Hc & He). exists r. split; [apply in_range; exact Hr|].
    apply in_flat_map. exists c. split; [apply in_range; exact Hc|].
    apply Z.eqb_eq in He. rewrite He. simpl. auto.
Qed.

Lemma painted_squares_nodup : NoDup painted_squares.
Proof.
  vm_compute.
  repeat (constructor;
          [ simpl; intros H;
            repeat (destruct H as [H|H]; [discriminate H|]); exact H | ]).
  constructor.
Qed.

Lemma painted_squares_count : List.length painted_squares = 35%nat.
Proof. reflexivity. Qed.

Lemma draw_chessboard_replay (canvas : ndarray Z) :
  draw_chessboard canvas = replay canvas painted_squares.
Proof. reflexivity. Qed.

Lemma replay_cons (rc : Z * Z) (rest : list (Z * Z)) (canvas : ndarray Z) :
  replay canvas (rc :: rest) =
  replay (cv2.rectangle canvas (fst (square_corners (fst rc) (snd rc)))
                        (snd (square_corners (fst rc) (snd rc))) BLACK) rest.
Proof. reflexivity. Qed.

Lemma replay_shape (squares : list (Z * Z)) (canvas : ndarray Z) :
  rows (replay canvas squares) = rows canvas /\
  cols (replay canvas squares) = cols canvas.
Proof.
  revert canvas. induction squares as [|rc rest IH]; intros canvas.
  - split; reflexivity.
  - rewrite replay_cons. destruct (IH (cv2.rectangle canvas
      (fst (square_corners (fst rc) (snd rc)))
      (snd (square_corners (fst rc) (snd rc))) BLACK)) as [Hr Hc].
    rewrite Hr, Hc. split; reflexivity.
Qed.

Lemma replay_data (squares : list (Z * Z)) (canvas : ndarray Z) (y x : Z) :
  data (replay canvas squares) y x =
  if existsb (fun rc => drawn_over rc y x) squares then BLACK
  else data canvas y x.
Proof.
  revert canvas. induction squares as [|rc rest IH]; intros canvas.
  - reflexivity.
  - rewrite replay_cons, IH.
    change (existsb (fun rc0 => drawn_over rc0 y x) (rc :: rest))
      with (drawn_over rc y x || existsb (fun rc0 => drawn_over rc0 y x) rest).
    change (data (cv2.rectangle canvas
                    (fst (square_corners (fst rc) (snd rc)))
                    (snd (square_corners (fst rc) (snd rc))) BLACK) y x)
      with (if drawn_over rc y x then BLACK else data canvas y x).
    destruct (drawn_over rc y x), (existsb (fun rc0 => drawn_over rc0 y x) rest);
      reflexivity.
Qed.

Lemma drawn_over_iff (r c y x : Z) :
  drawn_over (r, c) y x = true <->
  start_x + c * SQUARE_SIZE_PX <= x <= start_x + c * SQUARE_SIZE_PX + SQUARE_SIZE_PX /\
  start_y + r * SQUARE_SIZE_PX <= y <= start_y + r * SQUARE_SIZE_PX + SQUARE_SIZE_PX.
Proof.
  unfold drawn_over, cv2.covers, square_corners. simpl.
  rewrite !andb_true_iff, !Z.leb_le. unfold SQUARE_SIZE_PX. lia.
Qed.

Lemma in_square_iff (r c y x : Z) :
  in_square r c y x = true <->
  start_x + c * SQUARE_SIZE_PX <= x < start_x + (c + 1) * SQUARE_SIZE_PX /\
  start_y + r * SQUARE_SIZE_PX <= y < start_y + (r + 1) * SQUARE_SIZE_PX.
Proof.
  unfold in_square. rewrite !andb_true_iff, !Z.leb_le, !Z.ltb_lt. lia.
Qed.

(** A pixel of the painted canvas is black exactly when one of the 35
    rectangles was drawn over it, and white otherwise. *)
Lemma painted_canvas_data (y x : Z) :
  data painted_canvas y x =
  if existsb (fun rc => drawn_over rc y x) painted_squares
  then BLACK else WHITE.
Proof.
  unfold painted_canvas. rewrite draw_chessboard_replay, replay_data.
  reflexivity.
Qed.

Lemma painted_canvas_shape :
  rows painted_canvas = A4_WIDTH_PX /\ cols painted_canvas = A4_HEIGHT_PX.
Proof.
  unfold painted_canvas. rewrite draw_chessboard_replay.
  destruct (replay_shape painted_squares blank_canvas) as [-> ->].
  split; reflexivity.
Qed.

Lemma square_in_canvas (r c y x : Z) :
  0 <= r < BOARD_ROWS -> 0 <= c < BOARD_COLS ->
  in_square r c y x = true -> in_bounds painted_canvas y x = true.
Proof.
  intros Hr Hc Hin. apply in_square_iff in Hin. apply in_bounds_true.
  destruct painted_canvas_shape as [-> ->].
  unfold BOARD_ROWS, BOARD_COLS, SQUARE_SIZE_PX, A4_WIDTH_PX, A4_HEIGHT_PX in *.
  change start_x with 254 in *. change start_y with 190 in *. lia.
Qed.

(** Squares of even [r + c] are black on every pixel of their cell. *)
Lemma even_square_black (r c : Z) :
  0 <= r < BOARD_ROWS -> 0 <= c < BOARD_COLS -> (r + c) mod 2 = 0 ->
  square_is painted_canvas r c BLACK.
Proof.
  intros Hr Hc He y x Hin. unfold pixel.
  rewrite (square_in_canvas r c y x Hr Hc Hin). f_equal.
  rewrite painted_canvas_data.
  assert (E : existsb (fun rc => drawn_over rc y x) painted_squares = true).
  { apply existsb_exists. exists (r, c). split.
    - apply in_painted_squares. auto.
    - apply drawn_over_iff. apply in_square_iff in Hin.
      unfold SQUARE_SIZE_PX in *. lia. }
  rewrite E. reflexivity.
Qed.

(** Squares of odd [r + c] are white on every pixel of their cell other
    than its top row and its left column. *)
Lemma odd_square_white_inside (r c y x : Z) :
  0 <= r < BOARD_ROWS -> 0 <= c < BOARD_COLS -> (r + c) mod 2 <> 0 ->
  in_square r c y x = true ->
  x <> start_x + c * SQUARE_SIZE_PX -> y <> start_y + r * SQUARE_SIZE_PX ->
  pixel painted_canvas y x = Some WHITE.
Proof.
  intros Hr Hc Ho Hin Hx Hy. unfold pixel.
  rewrite (square_in_canvas r c y x Hr Hc Hin). f_equal.
  rewrite painted_canvas_data.
  destruct (existsb (fun rc => drawn_over rc y x) painted_squares) eqn:E;
    [|reflexivity].
  exfalso. apply existsb_exists in E. destruct E as [[r' c'] [Hin' Hov]].
  apply in_painted_squares in Hin'. apply drawn_over_iff in Hov.
  apply in_square_iff in Hin. unfold SQUARE_SIZE_PX in *.
  assert (r' = r) by lia. assert (c' = c) by lia. subst. tauto.
Qed.

(** A square is black on its whole cell exactly when [r + c] is even. *)
Lemma square_black_iff_even (r c : Z) :
  0 <= r < BOARD_ROWS -> 0 <= c < BOARD_COLS ->
  (square_is painted_canvas r c BLACK <-> (r + c) mod 2 = 0).
Proof.
  intros Hr Hc. split.
  - intros Hb. destruct (Z.eq_dec ((r + c) mod 2) 0) as [E|E]; [exact E|].
    exfalso.
    pose (y := start_y + r * SQUARE_SIZE_PX + 1).
    pose (x := start_x + c * SQUARE_SIZE_PX + 1).
    assert (Hin : in_square r c y x = true).
    { apply in_square_iff. unfold x, y, SQUARE_SIZE_PX. lia. }
    pose proof (Hb y x Hin) as H0.
    rewrite (odd_square_white_inside r c y x Hr Hc E Hin) in H0.
    + discriminate H0.
    + unfold x. lia.
    + unfold y. lia.
  - apply even_square_black; assumption.
Qed.

(** Every square of odd [r + c] has a black pixel: its top-left one,
    which the rectangle of the square to its left (or, in column 0, of
    the square above) reaches, since [cv2.rectangle] fills up to and
    including the bottom-right vertex. *)
Lemma odd_square_not_white (r c : Z) :
  0 <= r < BOARD_ROWS -> 0 <= c < BOARD_COLS -> (r + c) mod 2 <> 0 ->
  pixel painted_canvas (start_y + r * SQUARE_SIZE_PX)
        (start_x + c * SQUARE_SIZE_PX) = Some BLACK.
Proof.
  intros Hr Hc Ho.
  set (y := start_y + r * SQUARE_SIZE_PX).
  set (x := start_x + c * SQUARE_SIZE_PX).
  assert (Hin : in_square r c y x = true).
  { apply in_square_iff. unfold x, y, SQUARE_SIZE_PX. lia. }
  unfold pixel. rewrite (square_in_canvas r c y x Hr Hc Hin). f_equal.
  rewrite painted_canvas_data.
  assert (E : existsb (fun rc => drawn_over rc y x) painted_squares = true).
  { apply existsb_exists.
    assert (Hpar : (r + c) mod 2 = 1) by (pose proof (Z.mod_pos_bound (r + c) 2); lia).
    destruct (Z.eq_dec c 0) as [Hc0|Hc0].
    - exists (r - 1, c). split.
      + apply in_painted_squares. unfold BOARD_ROWS, BOARD_COLS in *.
        assert (r <> 0) by (intros ->; subst c; discriminate Hpar).
        repeat split; try lia.
        replace (r - 1 + c) with (r + c + (-1) * 2 + 1) by lia.
        rewrite Z.add_mod, Z.mod_add, Hpar by lia. reflexivity.
      + apply drawn_over_iff. unfold x, y, SQUARE_SIZE_PX. lia.
    - exists (r, c - 1). split.
      + apply in_painted_squares. unfold BOARD_ROWS, BOARD_COLS in *.
        repeat split; try lia.
        replace (r + (c - 1)) with (r + c + (-1) * 2 + 1) by lia.
        rewrite Z.add_mod, Z.mod_add, Hpar by lia. reflexivity.
      + apply drawn_over_iff. unfold x, y, SQUARE_SIZE_PX. lia. }
  rewrite E. reflexivity.
Qed.

(** The squares that are black on their whole cell are the 35 squares
    of [painted_squares]. *)
Lemma black_squares_are_the_painted_ones (r c : Z) :
  0 <= r < BOARD_ROWS -> 0 <= c < BOARD_COLS ->
  (square_is painted_canvas r c BLACK <-> In (r, c) painted_squares).
Proof.
  intros Hr Hc. rewrite in_painted_squares, square_black_iff_even by assumption.
  tauto.
Qed.

(** C3.  The parity pattern holds for the black squares (see
    [square_black_iff_even] and [painted_squares_count]), but the other
    squares do not remain white: square (r = 0, c = 1) has odd [r + c],
    pixel (y = 190, x = 554) is the top-left pixel of its cell, and the
    rectangle drawn for square (0, 0), whose vertices (254, 190) and
    (554, 490) are both filled, paints it black.  In the written
    portrait image this is pixel (row 2953, column 190). *)
Theorem white_square_edge_is_black :
  (0 + 1) mod 2 <> 0 /\
  square_corners 0 0 = ((254, 190), (554, 490)) /\
  in_square 0 1 190 554 = true /\
  pixel painted_canvas 190 554 = Some BLACK /\
  pixel (out_image create_a4_chessboard) 2953 190 = Some BLACK /\
  ~ square_is painted_canvas 0 1 WHITE.
Proof.
  assert (Hp : pixel painted_canvas 190 554 = Some BLACK) by (vm_compute; reflexivity).
  split; [discriminate|].
  split; [reflexivity|].
  split; [reflexivity|].
  split; [exact Hp|].
  split; [vm_compute; reflexivity|].
  intros Hw. specialize (Hw 190 554 eq_refl). rewrite Hp in Hw. discriminate Hw.
Qed.

(** C4.  The canvas is created with shape (2480, 3508), every element
    255; what is written is the painted canvas rotated by 90 degrees
    counter-clockwise, of shape (3508, 2480): 3508 rows of 2480 pixels,
    taller than wide.  The line printed after the write gives width x
    height, 2480 x 3508. *)
Theorem canvas_white_then_portrait :
  shape blank_canvas = (2480, 3508) /\
  (forall y x, data blank_canvas y x = 255) /\
  out_image create_a4_chessboard = cv2.rotate_90_ccw painted_canvas /\
  shape (out_image create_a4_chessboard) = (3508, 2480) /\
  rows (out_image create_a4_chessboard) > cols (out_image create_a4_chessboard) /\
  (forall i j, pixel (out_image create_a4_chessboard) i j =
               pixel painted_canvas j (3507 - i)) /\
  out_printed_dims create_a4_chessboard = (2480, 3508).
Proof.
  destruct painted_canvas_shape as [Hr Hc].
  assert (Hs : shape (out_image create_a4_chessboard) = (3508, 2480)).
  { change (shape (out_image create_a4_chessboard))
      with (cols painted_canvas, rows painted_canvas).
    rewrite Hr, Hc. reflexivity. }
  split; [reflexivity|].
  split; [intros y x; reflexivity|].
  split; [reflexivity|].
  split; [exact Hs|].
  split.
  { change (cols painted_canvas > rows painted_canvas).
    rewrite Hr, Hc. reflexivity. }
  split.
  - intros i j. unfold pixel.
    assert (Hb : in_bounds (out_image create_a4_chessboard) i j =
                 in_bounds painted_canvas j (3507 - i)).
    { unfold in_bounds.
      change (rows (out_image create_a4_chessboard)) with (cols painted_canvas).
      change (cols (out_image create_a4_chessboard)) with (rows painted_canvas).
      rewrite Hr, Hc. unfold A4_WIDTH_PX, A4_HEIGHT_PX.
      destruct (0 <=? i) eqn:E1, (i <? 3508) eqn:E2, (0 <=? j) eqn:E3,
               (j <? 2480) eqn:E4, (0 <=? 3507 - i) eqn:E5,
               (3507 - i <? 3508) eqn:E6; try reflexivity;
        rewrite ?Z.leb_le, ?Z.ltb_lt, ?Z.leb_gt, ?Z.ltb_ge in *; lia. }
    rewrite Hb.
    change (data (out_image create_a4_chessboard) i j)
      with (data painted_canvas j (cols painted_canvas - 1 - i)).
    rewrite Hc. reflexivity.
  - change (out_printed_dims create_a4_chessboard)
      with (rows painted_canvas, cols painted_canvas).
    rewrite Hr, Hc. reflexivity.
Qed.

(** C9.  With the constants of the script the board fits in the paper:
    the offsets are 254 and 190, the 3000 x 2100 board ends inside the
    3508 x 2480 landscape canvas, and every pixel of the rectangle
    handed to [cv2.rectangle] for a square of the board, bottom-right
    vertex included, is a pixel of the canvas. *)
Theorem board_fits_in_paper (r c y x : Z) :
  0 <= r < BOARD_ROWS -> 0 <= c < BOARD_COLS ->
  drawn_over (r, c) y x = true ->
  in_bounds blank_canvas y x = true /\
  start_x = 254 /\ start_y = 190 /\
  0 <= start_x /\ start_x + board_w <= cols blank_canvas /\
  0 <= start_y /\ start_y + board_h <= rows blank_canvas.
Proof.
  intros Hr Hc Hd. apply drawn_over_iff in Hd. split.
  - apply in_bounds_true. simpl.
    unfold BOARD_ROWS, BOARD_COLS, SQUARE_SIZE_PX, A4_WIDTH_PX, A4_HEIGHT_PX in *.
    change start_x with 254 in *. change start_y with 190 in *. lia.
  - split; [reflexivity|]. split; [reflexivity|].
    repeat split; vm_compute; discriminate.
Qed.

Lemma board_fits_in_paper_witness :
  in_bounds blank_canvas 2290 3254 = true /\
  start_x = 254 /\ start_y = 190 /\
  0 <= start_x /\ start_x + board_w <= cols blank_canvas /\
  0 <= start_y /\ start_y + board_h <= rows blank_canvas.
Proof.
  apply (board_fits_in_paper 6 9 2290 3254).
  - unfold BOARD_ROWS. lia.
  - unfold BOARD_COLS. lia.
  - reflexivity.
Defined.

End ChessboardSpec.

(* ================================================================= *)
(** ** Properties of the transform visualizer *)

Module VisualizerSpec.

Import cv2 Visualizer.
Local Open Scope string_scope.
Local Open Scope Z_scope.

(** *** Trackbars *)

Lemma trackbars_created :
  trackbars WINDOW_NAME =
  [ ("Angle", 180, 360); ("Translate X", 150, 300);
    ("Translate Y", 100, 200); ("Scale", 100, 180) ].
Proof. reflexivity. Qed.

(** The Scale trackbar runs over the positions 0 .. 180: [setup_ui]
    gives it the maximum [max_val - min_val]. *)
Lemma scale_positions (pos : Z) :
  reachable_position "Scale" pos <-> 0 <= pos <= 180.
Proof.
  unfold reachable_position. rewrite trackbars_created. split.
  - intros (value & count & Hin & Hpos). simpl in Hin.
    destruct Hin as [H|[H|[H|[H|[]]]]]; inversion H; subst; exact Hpos.
  - intros Hpos. exists 100, 180. split; [|exact Hpos].
    simpl. right. right. right. left. reflexivity.
Qed.

(** *** The scale *)

Lemma similarity_scale (mode scale_pos : Z) :
  mode <> 0 -> fst (scale_and_text mode scale_pos) = (IZR scale_pos / 100)%R.
Proof.
  intros Hm. unfold scale_and_text.
  destruct (mode =? 0) eqn:E; [apply Z.eqb_eq in E; contradiction|reflexivity].
Qed.

(** What the code does in Similarity mode over the whole trackbar: the
    scale is [position / 100.0], between 0.00 and 1.80; it is in
    [0.20, 2.00] only from position 20 on. *)
Lemma similarity_scale_range (pos : Z) :
  reachable_position "Scale" pos ->
  fst (scale_and_text SIMILARITY pos) = (IZR pos / 100)%R /\
  (0 <= fst (scale_and_text SIMILARITY pos) <= 1.80)%R /\
  ((0.20 <= fst (scale_and_text SIMILARITY pos) <= 2.00)%R <-> 20 <= pos).
Proof.
  intros Hpos. apply scale_positions in Hpos.
  rewrite similarity_scale by discriminate.
  assert (H0 : (0 <= IZR pos)%R) by (apply IZR_le; lia).
  assert (H1 : (IZR pos <= 180)%R) by (apply IZR_le; lia).
  split; [reflexivity|]. split; [lra|]. split.
  - intros [Hlo _]. apply le_IZR. lra.
  - intros H20. apply IZR_le in H20. lra.
Qed.

(** C1.  The Scale trackbar can stand at position 0.  In Similarity mode
    the loop then uses the scale 0 / 100.0 = 0.0: the position is not
    offset by the configured minimum 20 (which would give 0.20), and the
    value is outside [0.20, 2.00]. *)
Theorem scale_slider_not_offset :
  reachable_position "Scale" 0 /\
  fst (scale_and_text SIMILARITY 0) = 0%R /\
  fst (scale_and_text SIMILARITY 0) <> (IZR (0 + min_val Scale) / 100)%R /\
  ~ (0.20 <= fst (scale_and_text SIMILARITY 0) <= 2.00)%R.
Proof.
  assert (E : fst (scale_and_text SIMILARITY 0) = 0%R).
  { rewrite similarity_scale by discriminate. lra. }
  split; [apply scale_positions; lia|].
  split; [exact E|]. rewrite E. split.
  - change (IZR (0 + min_val Scale)) with 20%R. lra.
  - lra.
Qed.

(** The scale is 0 exactly in Similarity mode at position 0. *)
Lemma scale_zero_iff (mode pos : Z) :
  fst (scale_and_text mode pos) = 0%R <-> mode <> 0 /\ pos = 0.
Proof.
  unfold scale_and_text. destruct (mode =? 0) eqn:E; simpl.
  - apply Z.eqb_eq in E. split; [lra|tauto].
  - apply Z.eqb_neq in E. split.
    + intros H. split; [exact E|]. apply eq_IZR. lra.
    + intros [_ ->]. lra.
Qed.

(** *** The matrix *)

Lemma transform_matrix_unfold (image : ndarray Pixel) (mode : Z) (inp : FrameInput) :
  transform_matrix image mode inp =
  let a := (IZR (angle_pos inp - 180) * PI / 180)%R in
  let s := fst (scale_and_text mode (scale_pos inp)) in
  let cx := (IZR (cols image) / 2)%R in
  let cy := (IZR (rows image) / 2)%R in
  ((cos a * s, sin a * s,
    (1 - cos a * s) * cx - sin a * s * cy + IZR (tx_pos inp - 150)),
   (- (sin a * s), cos a * s,
    sin a * s * cx + (1 - cos a * s) * cy + IZR (ty_pos inp - 100)))%R.
Proof. reflexivity. Qed.

Lemma mat23_eq (a b c d e f a' b' c' d' e' f' : R) :
  a = a' -> b = b' -> c = c' -> d = d' -> e = e' -> f = f' ->
  ((a, b, c), (d, e, f)) = ((a', b', c'), (d', e', f')).
Proof. intros; subst; reflexivity. Qed.

Lemma similarity_matrix_at_zero (image : ndarray Pixel) (a_pos x_pos y_pos key : Z) :
  transform_matrix image SIMILARITY (mk_input a_pos x_pos y_pos 0 key) =
  ((0, 0, IZR (cols image) / 2 + IZR (x_pos - 150)),
   (0, 0, IZR (rows image) / 2 + IZR (y_pos - 100)))%R.
Proof.
  rewrite transform_matrix_unfold. cbv zeta.
  rewrite similarity_scale by discriminate.
  cbn [angle_pos tx_pos ty_pos scale_pos].
  apply mat23_eq; field.
Qed.

(** C2.  One press of 'm' puts the loop in Similarity mode, position 0
    is a position of the Scale trackbar, and with the slider there the
    scale handed to [cv2.getRotationMatrix2D] is 0: the linear part of
    the matrix built for the frame vanishes. *)
Theorem similarity_scale_can_be_zero (image : ndarray Pixel) :
  mode_after initial_mode [KEY_M] = Some SIMILARITY /\
  reachable_position "Scale" 0 /\
  fst (scale_and_text SIMILARITY (scale_pos (mk_input 180 150 100 0 (-1)))) = 0%R /\
  transform_matrix image SIMILARITY (mk_input 180 150 100 0 (-1)) =
  ((0, 0, IZR (cols image) / 2), (0, 0, IZR (rows image) / 2))%R.
Proof.
  split; [reflexivity|].
  split; [apply scale_positions; lia|].
  split; [apply scale_zero_iff; split; [discriminate|reflexivity]|].
  rewrite similarity_matrix_at_zero.
  change (IZR (150 - 150)) with 0%R. change (IZR (100 - 100)) with 0%R.
  apply mat23_eq; lra.
Qed.

(** In Rigid mode the scale is never 0, and in Similarity mode it is not
    0 from position 1 on. *)
Lemma scale_nonzero (mode pos : Z) :
  mode = 0 \/ pos <> 0 -> fst (scale_and_text mode pos) <> 0%R.
Proof.
  intros H E. apply scale_zero_iff in E. tauto.
Qed.

(** C6.  With [mode = 0] the scale of the frame is 1.0 whatever the
    position of the Scale trackbar, and the matrix of the frame is the
    rotation matrix of scale 1 about the centre of the image, plus the
    translation: it does not depend on the Scale position. *)
Theorem rigid_scale_is_one (image : ndarray Pixel) (inp : FrameInput) :
  fst (scale_and_text RIGID (scale_pos inp)) = 1%R /\
  snd (scale_and_text RIGID (scale_pos inp)) = RigidText /\
  transform_matrix image RIGID inp =
    (let '((m00, m01, m02), (m10, m11, m12)) :=
       getRotationMatrix2D (center image) (IZR (angle_pos inp - 180)) 1 in
     ((m00, m01, m02 + IZR (tx_pos inp - 150)),
      (m10, m11, m12 + IZR (ty_pos inp - 100))))%R /\
  forall p : Z,
    transform_matrix image RIGID inp =
    transform_matrix image RIGID
      (mk_input (angle_pos inp) (tx_pos inp) (ty_pos inp) p (wait_key inp)).
Proof.
  split; [reflexivity|]. split; [reflexivity|]. split; [reflexivity|].
  intros p. reflexivity.
Qed.

(** *** Warping by the identity *)

Lemma Int_part_IZR (z : Z) : Int_part (IZR z) = z.
Proof. symmetry. apply Int_part_spec. lra. Qed.

Lemma Rround_IZR (z : Z) : Rround (IZR z) = z.
Proof.
  unfold Rround. rewrite Int_part_IZR.
  destruct (Rlt_dec (IZR z - IZR z) (/ 2)) as [H|H]; [reflexivity|].
  exfalso. apply H. lra.
Qed.

Lemma blend_on_grid (p00 p01 p10 p11 : Z) : blend 0 0 p00 p01 p10 p11 = p00.
Proof.
  unfold blend.
  replace ((1 - 0) * (1 - 0) * IZR p00 + 0 * (1 - 0) * IZR p01 +
           (1 - 0) * 0 * IZR p10 + 0 * 0 * IZR p11)%R with (IZR p00) by ring.
  apply Rround_IZR.
Qed.

(** At integer coordinates the interpolation returns the source pixel. *)
Lemma sample_linear_on_grid (src : ndarray Pixel) (bv : Pixel) (y x : Z) :
  sample_linear src bv (IZR x) (IZR y) = fetch src bv y x.
Proof.
  unfold sample_linear. rewrite !Int_part_IZR.
  replace (IZR x - IZR x)%R with 0%R by ring.
  replace (IZR y - IZR y)%R with 0%R by ring.
  destruct (fetch src bv y x) as [[b00 g00] r00].
  destruct (fetch src bv y (x + 1)) as [[b01 g01] r01].
  destruct (fetch src bv (y + 1) x) as [[b10 g10] r10].
  destruct (fetch src bv (y + 1) (x + 1)) as [[b11 g11] r11].
  rewrite !blend_on_grid. reflexivity.
Qed.

Lemma invert_identity : invertAffineTransform IDENTITY = IDENTITY.
Proof.
  unfold invertAffineTransform, IDENTITY.
  destruct (Req_EM_T (1 * 1 - 0 * 0) 0) as [E|E]; [lra|].
  apply mat23_eq; field.
Qed.

(** Warping by the identity into a buffer of the size of the source
    gives back the source, whatever the border value. *)
Lemma warp_identity (src : ndarray Pixel) (bv : Pixel) :
  let dst := warpAffine src IDENTITY (cols src, rows src) bv in
  shape dst = shape src /\ forall y x, pixel dst y x = pixel src y x.
Proof.
  unfold warpAffine. rewrite invert_identity. unfold IDENTITY. cbv zeta.
  split; [reflexivity|]. intros y x. unfold pixel at 1.
  change (in_bounds (mk_ndarray _ _ _) y x) with (in_bounds src y x).
  cbn [data fst snd].
  replace (1 * IZR x + 0 * IZR y + 0)%R with (IZR x) by ring.
  replace (0 * IZR x + 1 * IZR y + 0)%R with (IZR y) by ring.
  rewrite sample_linear_on_grid. unfold fetch, pixel.
  destruct (in_bounds src y x); reflexivity.
Qed.

Lemma default_matrix (image : ndarray Pixel) (mode key : Z) :
  transform_matrix image mode
    (mk_input (default_pos Angle) (default_pos Translate_X)
              (default_pos Translate_Y) (default_pos Scale) key) = IDENTITY.
Proof.
  rewrite transform_matrix_unfold. cbv zeta.
  cbn [angle_pos tx_pos ty_pos scale_pos default_pos
       Angle Translate_X Translate_Y Scale].
  assert (Hs : fst (scale_and_text mode 100) = 1%R).
  { unfold scale_and_text. destruct (mode =? 0); simpl; lra. }
  rewrite Hs.
  change (IZR (180 - 180)) with 0%R. change (IZR (150 - 150)) with 0%R.
  change (IZR (100 - 100)) with 0%R.
  replace (0 * PI / 180)%R with 0%R by field.
  rewrite cos_0, sin_0. unfold IDENTITY. apply mat23_eq; field.
Qed.

(** C5.  With the four trackbars at the positions [setup_ui] gave them
    (180, 150, 100, 100) the angle, the translations and the scale are
    0, 0, 0 and 1.0 in either mode, the matrix of the frame is the
    identity, and the warped image has the shape of the input image and
    the same value at every pixel, so no pixel takes the border value. *)
Theorem default_sliders_identity (image : ndarray Pixel) (mode key : Z) :
  let inp := mk_input (default_pos Angle) (default_pos Translate_X)
                      (default_pos Translate_Y) (default_pos Scale) key in
  map (fun t => snd (fst t)) (trackbars WINDOW_NAME) =
    [angle_pos inp; tx_pos inp; ty_pos inp; scale_pos inp] /\
  angle_pos inp + min_val Angle = 0 /\
  tx_pos inp + min_val Translate_X = 0 /\
  ty_pos inp + min_val Translate_Y = 0 /\
  fst (scale_and_text mode (scale_pos inp)) = 1%R /\
  transform_matrix image mode inp = ((1, 0, 0), (0, 1, 0))%R /\
  shape (transformed_image image mode inp) = shape image /\
  (forall y x, pixel (transformed_image image mode inp) y x = pixel image y x) /\
  (forall bv y x,
     pixel (warpAffine image (transform_matrix image mode inp)
                       (cols image, rows image) bv) y x = pixel image y x).
Proof.
  cbv zeta.
  split; [reflexivity|]. split; [reflexivity|].
  split; [reflexivity|]. split; [reflexivity|].
  split.
  { unfold scale_and_text. destruct (mode =? 0); simpl; lra. }
  split; [apply default_matrix|].
  unfold transformed_image. rewrite default_matrix.
  split; [apply (warp_identity image BACKGROUND)|].
  split; [apply (warp_identity image BACKGROUND)|].
  intros bv. apply (warp_identity image bv).
Qed.

(** *** Keys and the mode *)

Lemma handle_key_cases (raw mode : Z) :
  (Z.land raw 255 = KEY_ESC /\ handle_key raw mode = None) \/
  (Z.land raw 255 = KEY_M /\ handle_key raw mode = Some (1 - mode)) \/
  (Z.land raw 255 <> KEY_ESC /\ Z.land raw 255 <> KEY_M /\
   handle_key raw mode = Some mode).
Proof.
  unfold handle_key.
  destruct (Z.land raw 255 =? KEY_ESC) eqn:E1.
  - left. apply Z.eqb_eq in E1. auto.
  - apply Z.eqb_neq in E1. destruct (Z.land raw 255 =? KEY_M) eqn:E2.
    + right. left. apply Z.eqb_eq in E2. auto.
    + right. right. apply Z.eqb_neq in E2. auto.
Qed.


(** The loop ends as the run of its keys says. *)
Lemma loop_from_mode {env} (image : ndarray Pixel) (inputs : list FrameInput)
      (mode : Z) (w : World env) :
  fst (loop_from image mode inputs w) =
  match mode_after mode (map wait_key inputs) with
  | Some m => Polling m
  | None => Exited
  end.
Proof.
  revert mode w. induction inputs as [|inp rest IH]; intros mode w.
  - reflexivity.
  - simpl. unfold bind, emit.
    destruct (handle_key (wait_key inp) mode) as [mode'|].
    + apply IH.
    + reflexivity.
Qed.



(** *** Image acquisition *)

Ltac run_io :=
  unfold get_image, download_image, imread, imwrite, print, emit, store,
         path_exists, bind, ret;
  cbn [fs trace fst snd negb].

(** Splits a run of [get_image] into the cases of what it finds. *)
Ltac io_cases :=
  repeat first
    [ progress cbn [negb fs trace fst snd]
    | rewrite String.eqb_refl
    | match goal with
      | H : ?x = _ |- context [match ?x with _ => _ end] => rewrite H
      | |- context [match fs ?w ?f with _ => _ end] =>
          is_var w; destruct (fs w f) eqn:?
      | |- context [match http_get ?e ?u with _ => _ end] =>
          destruct (http_get e u) as [?|[[?|] ?]] eqn:?
      | |- context [match imdecode ?e ?b with _ => _ end] =>
          destruct (imdecode e b) eqn:?
      | |- context [match imencode ?e ?f ?i with _ => _ end] =>
          destruct (imencode e f i) eqn:?
      | |- context [if has_writer ?e ?f then _ else _] =>
          destruct (has_writer e f) eqn:?
      end ].

(** C10.  When the file is there and decodes, [get_image] returns the
    decoded image; the files are left as they were, and the only thing
    the call does is the one [cv2.imread]: no request is sent and
    nothing is written. *)
Theorem existing_image_only_read {env : Env} (filename : string)
        (w : World env) (b : Bytes env) (img : ndarray Pixel) :
  fs w filename = Some b -> imdecode env b = Some img ->
  fst (get_image filename w) = Returned (Some img) /\
  fs (snd (get_image filename w)) = fs w /\
  trace (snd (get_image filename w)) = (trace w ++ [EvImread filename])%list /\
  existsb touches_outside [EvImread filename] = false.
Proof.
  intros Hfile Hdec. run_io. rewrite Hfile. cbn [negb fs trace].
  rewrite Hfile, Hdec. cbn [fst snd fs trace].
  repeat split.
Qed.

Lemma existing_image_only_read_witness :
  fst (get_image IMAGE_FILENAME sample_world) = Returned (Some sample_image) /\
  fs (snd (get_image IMAGE_FILENAME sample_world)) = fs sample_world /\
  trace (snd (get_image IMAGE_FILENAME sample_world)) = [EvImread IMAGE_FILENAME] /\
  existsb touches_outside [EvImread IMAGE_FILENAME] = false.
Proof.
  apply (@existing_image_only_read offline_env IMAGE_FILENAME sample_world
                                   sample_image sample_image).
  - reflexivity.
  - reflexivity.
Defined.

(** [get_image] opens no window, whatever it finds. *)
Lemma get_image_no_ui {env : Env} (filename : string) (w : World env) :
  exists evs, trace (snd (get_image filename w)) = (trace w ++ evs)%list /\
              existsb is_ui_event evs = false.
Proof.
  run_io. io_cases; rewrite <- ?app_assoc; eexists; split; reflexivity.
Qed.

(** Without an image [main] prints one line and returns. *)
Lemma main_without_image {env : Env} (inputs : list FrameInput) (w : World env) :
  fst (get_image IMAGE_FILENAME w) = Returned None ->
  main inputs w =
  (Finished,
   mk_world (fs (snd (get_image IMAGE_FILENAME w)))
            (trace (snd (get_image IMAGE_FILENAME w)) ++
             [EvPrint "Could not load or create a sample image. Exiting."])).
Proof.
  intros Hnone. unfold main, bind.
  destruct (get_image IMAGE_FILENAME w) as [r w1]. cbn [fst snd] in *.
  subst r. reflexivity.
Qed.

Lemma placeholder_shape (env : Env) : shape (img_placeholder env) = (400, 600).
Proof.
  unfold img_placeholder.
  destruct (getTextSize env "Sample Image" 2 3) as [tw th]. reflexivity.
Qed.

(** How [get_image] ends when the file is absent and the request fails
    before anything is written. *)
Lemma get_image_offline {env : Env} (filename : string) (w : World env)
      (e : string) :
  fs w filename = None -> http_get env IMAGE_URL = inr (None, e) ->
  fst (get_image filename w) =
    match imencode env filename (img_placeholder env) with
    | Some b => Returned (imdecode env b)
    | None => if has_writer env filename then Returned None
              else Raised NO_WRITER
    end /\
  fs (snd (get_image filename w)) filename =
    imencode env filename (img_placeholder env) /\
  In (EvImwrite filename (img_placeholder env))
     (trace (snd (get_image filename w))).
Proof.
  intros Hfile Hnet. run_io. rewrite Hfile. cbn [negb fs trace].
  rewrite Hnet. cbn [fs trace fst snd]. rewrite Hfile. cbn [fs trace fst snd].
  destruct (imencode env filename (img_placeholder env)) as [b|];
    cbn [fs trace fst snd].
  - rewrite String.eqb_refl. repeat split.
    apply in_or_app. left. apply in_or_app. right. left. reflexivity.
  - destruct (has_writer env filename); cbn [fs trace fst snd];
      rewrite ?Hfile; repeat split.
    + apply in_or_app. left. apply in_or_app. right. left. reflexivity.
    + apply in_or_app. right. left. reflexivity.
Qed.

(** C7.  With the file absent and the request failing before anything
    is written, [get_image] hands the captioned 400 x 600 placeholder
    to [cv2.imwrite] under the file name and, when that call returns,
    returns what reading the file back gives.  So it returns an image
    whenever the write and the reload succeed: of 400 rows by 600
    columns of 3-channel pixels when the codec keeps the shape, and as
    close to the captioned placeholder as the codec is accurate.  It
    returns [None] only when the write or the reload fails (for a name
    without a writer the failed write is the [cv2.error] of
    [cv2.imwrite], which leaves [get_image] as it is raised).  Whenever
    [get_image] returns [None], [main] prints one line and returns: no
    window, no trackbar, no frame. *)
Theorem placeholder_when_offline {env : Env} (filename : string)
        (w : World env) (e : string) :
  fs w filename = None -> http_get env IMAGE_URL = inr (None, e) ->
  let written := imencode env filename (img_placeholder env) in
  let reload := match written with
                | Some b => imdecode env b
                | None => None
                end in
  fst (get_image filename w) =
    match written with
    | Some _ => Returned reload
    | None => if has_writer env filename then Returned None
              else Raised NO_WRITER
    end /\
  (forall img, reload = Some img ->
               fst (get_image filename w) = Returned (Some img)) /\
  (fst (get_image filename w) = Returned None -> reload = None) /\
  fs (snd (get_image filename w)) filename = written /\
  In (EvImwrite filename (img_placeholder env))
     (trace (snd (get_image filename w))) /\
  shape (img_placeholder env) = (400, 600) /\
  (forall y x,
     data (img_placeholder env) y x =
     text_pixels env "Sample Image"
       ((600 - fst (getTextSize env "Sample Image" 2 3)) / 2,
        (400 + snd (getTextSize env "Sample Image" 2 3)) / 2)
       2 (255, 255, 255) 3 (full (400, 600) (47, 53, 66)) y x) /\
  ((forall img b img',
      imencode env filename img = Some b -> imdecode env b = Some img' ->
      shape img' = shape img) ->
   forall img, fst (get_image filename w) = Returned (Some img) ->
               shape img = (400, 600)) /\
  (forall tol,
     (forall img b img',
        imencode env filename img = Some b -> imdecode env b = Some img' ->
        close_to tol img' img) ->
     forall img, fst (get_image filename w) = Returned (Some img) ->
                 close_to tol img (img_placeholder env)) /\
  (forall (inputs : list FrameInput) (w0 : World env),
     fst (get_image IMAGE_FILENAME w0) = Returned None ->
     fst (main inputs w0) = Finished /\
     exists evs, trace (snd (main inputs w0)) = (trace w0 ++ evs)%list /\
                 existsb is_ui_event evs = false).
Proof.
  intros Hfile Hnet. cbv zeta.
  destruct (get_image_offline filename w e Hfile Hnet) as (Hres & Hfs & Hev).
  assert (Hsome : forall img, fst (get_image filename w) = Returned (Some img) ->
                  exists b, imencode env filename (img_placeholder env) = Some b /\
                            imdecode env b = Some img).
  { intros img Himg. rewrite Hres in Himg.
    destruct (imencode env filename (img_placeholder env)) as [b|].
    - exists b. split; [reflexivity|]. congruence.
    - destruct (has_writer env filename); discriminate Himg. }
  split.
  { rewrite Hres.
    destruct (imencode env filename (img_placeholder env)); reflexivity. }
  split.
  { intros img Hre. rewrite Hres.
    destruct (imencode env filename (img_placeholder env)) as [b|];
      [rewrite Hre; reflexivity|discriminate Hre]. }
  split.
  { intros Hnone. rewrite Hres in Hnone.
    destruct (imencode env filename (img_placeholder env)) as [b|];
      [congruence|reflexivity]. }
  split; [exact Hfs|]. split; [exact Hev|].
  split; [apply placeholder_shape|]. split.
  { intros y x. unfold img_placeholder.
    destruct (getTextSize env "Sample Image" 2 3) as [tw th]. reflexivity. }
  split.
  { intros Hcodec img Himg. destruct (Hsome img Himg) as (b & Henc & Hdec).
    rewrite (Hcodec _ _ _ Henc Hdec). apply placeholder_shape. }
  split.
  { intros tol Hcodec img Himg. destruct (Hsome img Himg) as (b & Henc & Hdec).
    exact (Hcodec _ _ _ Henc Hdec). }
  intros inputs w0 Hnone. rewrite (main_without_image inputs w0 Hnone).
  cbn [fst snd trace]. split; [reflexivity|].
  destruct (get_image_no_ui IMAGE_FILENAME w0) as (evs & -> & Hui).
  exists (evs ++ [EvPrint "Could not load or create a sample image. Exiting."])%list.
  split; [rewrite app_assoc; reflexivity|].
  rewrite existsb_app, Hui. reflexivity.
Qed.

Lemma placeholder_when_offline_witness :
  fst (get_image IMAGE_FILENAME empty_world) =
    Returned (Some (img_placeholder offline_env)) /\
  fs (snd (get_image IMAGE_FILENAME empty_world)) IMAGE_FILENAME =
    Some (img_placeholder offline_env) /\
  shape (img_placeholder offline_env) = (400, 600) /\
  pixel (img_placeholder offline_env) 200 300 = Some (255, 255, 255) /\
  pixel (img_placeholder offline_env) 0 0 = Some (47, 53, 66).
Proof.
  destruct (@placeholder_when_offline offline_env IMAGE_FILENAME empty_world
              "connection refused" eq_refl eq_refl)
    as (Hres & _ & _ & Hfs & _ & Hshape & _ & _ & _ & _).
  split; [exact Hres|]. split; [exact Hfs|]. split; [exact Hshape|].
  split; reflexivity.
Defined.

(** Without a writer the [cv2.error] leaves [get_image], and [main]
    with it: nothing is returned and no closing line is printed. *)
Example get_image_can_raise :
  fst (get_image IMAGE_FILENAME bare_disk) = Raised NO_WRITER /\
  fst (main [] bare_disk) = Crashed NO_WRITER /\
  trace (snd (main [] bare_disk)) = trace (snd (get_image IMAGE_FILENAME bare_disk)).
Proof. repeat split. Qed.

End VisualizerSpec.

(* ================================================================= *)
(** ** Further properties of the chessboard generator *)

Module ChessboardMore.

Import Chessboard ChessboardSpec.

Lemma covered_iff (y x : Z) :
  existsb (fun rc => drawn_over rc y x) painted_squares = true <->
  exists r c, In (r, c) painted_squares /\ drawn_over (r, c) y x = true.
Proof.
  rewrite existsb_exists. split.
  - intros [[r c] [Hin Hd]]. exists r, c. auto.
  - intros (r & c & Hin & Hd). exists (r, c). auto.
Qed.

Lemma painted_black_iff (y x : Z) :
  data painted_canvas y x = BLACK <->
  exists r c, In (r, c) painted_squares /\ drawn_over (r, c) y x = true.
Proof.
  rewrite painted_canvas_data, <- covered_iff.
  destruct (existsb (fun rc => drawn_over rc y x) painted_squares).
  - split; reflexivity.
  - split; intros H; discriminate H.
Qed.

(** X1.  The painted canvas holds only 0 and 255, and every pixel
    outside the columns 254 .. 3254 and the rows 190 .. 2290 (the board
    and the one extra column and row the rectangles reach) is 255. *)
Theorem margin_stays_white (y x : Z) :
  (data painted_canvas y x = BLACK \/ data painted_canvas y x = WHITE) /\
  (x < start_x \/ start_x + board_w < x \/
   y < start_y \/ start_y + board_h < y ->
   data painted_canvas y x = WHITE).
Proof.
  split.
  - rewrite painted_canvas_data.
    destruct (existsb _ painted_squares); [left|right]; reflexivity.
  - intros Hout. rewrite painted_canvas_data.
    destruct (existsb (fun rc => drawn_over rc y x) painted_squares) eqn:E;
      [|reflexivity].
    exfalso. apply covered_iff in E. destruct E as (r & c & Hin & Hd).
    apply in_painted_squares in Hin. apply drawn_over_iff in Hd.
    unfold BOARD_ROWS, BOARD_COLS, SQUARE_SIZE_PX in *.
    change start_x with 254 in *. change start_y with 190 in *.
    change board_w with 3000 in *. change board_h with 2100 in *. lia.
Qed.

Lemma margin_stays_white_witness :
  pixel painted_canvas 2291 3254 = Some WHITE /\
  pixel painted_canvas 0 0 = Some WHITE.
Proof.
  split; unfold pixel.
  - change (in_bounds painted_canvas 2291 3254) with true. cbv iota.
    rewrite (proj2 (margin_stays_white 2291 3254)); [reflexivity|].
    right. right. right. vm_compute. reflexivity.
  - change (in_bounds painted_canvas 0 0) with true. cbv iota.
    rewrite (proj2 (margin_stays_white 0 0)); [reflexivity|].
    left. vm_compute. reflexivity.
Defined.

Lemma portrait_pixel (i j : Z) :
  pixel (out_image create_a4_chessboard) i j =
  if (0 <=? i) && (i <? 3508) && (0 <=? j) && (j <? 2480)
  then Some (data painted_canvas j (3507 - i)) else None.
Proof.
  destruct painted_canvas_shape as [Hr Hc].
  unfold pixel, in_bounds.
  change (rows (out_image create_a4_chessboard)) with (cols painted_canvas).
  change (cols (out_image create_a4_chessboard)) with (rows painted_canvas).
  change (data (out_image create_a4_chessboard) i j)
    with (data painted_canvas j (cols painted_canvas - 1 - i)).
  rewrite Hr, Hc. reflexivity.
Qed.

(** X2.  In the written portrait image a pixel is black exactly when it
    lies, for some square of even [r + c], in the rows
    2953 - 300 c .. 3253 - 300 c and the columns 190 + 300 r ..
    490 + 300 r: the columns of the board run from the bottom of the
    page upwards and its rows from left to right. *)
Theorem portrait_black_iff (i j : Z) :
  pixel (out_image create_a4_chessboard) i j = Some BLACK <->
  exists r c,
    0 <= r < BOARD_ROWS /\ 0 <= c < BOARD_COLS /\ (r + c) mod 2 = 0 /\
    2953 - 300 * c <= i <= 3253 - 300 * c /\
    190 + 300 * r <= j <= 490 + 300 * r.
Proof.
  rewrite portrait_pixel. split.
  - intros H.
    destruct ((0 <=? i) && (i <? 3508) && (0 <=? j) && (j <? 2480)) eqn:B;
      [|discriminate H].
    assert (Hb : data painted_canvas j (3507 - i) = BLACK) by congruence.
    apply painted_black_iff in Hb. destruct Hb as (r & c & Hin & Hd).
    apply in_painted_squares in Hin. apply drawn_over_iff in Hd.
    exists r, c. unfold SQUARE_SIZE_PX in Hd.
    change start_x with 254 in Hd. change start_y with 190 in Hd.
    repeat split; try tauto; lia.
  - intros (r & c & Hr & Hc & He & Hi & Hj).
    assert (B : (0 <=? i) && (i <? 3508) && (0 <=? j) && (j <? 2480) = true).
    { unfold BOARD_ROWS, BOARD_COLS in *.
      rewrite !andb_true_iff, !Z.leb_le, !Z.ltb_lt. lia. }
    rewrite B. f_equal. apply painted_black_iff. exists r, c. split.
    + apply in_painted_squares. auto.
    + apply drawn_over_iff. unfold SQUARE_SIZE_PX.
      change start_x with 254. change start_y with 190. lia.
Qed.

End ChessboardMore.

(* ================================================================= *)
(** ** Further properties of the transform visualizer *)

Module VisualizerMore.

Import cv2 Visualizer Further VisualizerSpec.
Local Open Scope string_scope.
Local Open Scope Z_scope.

(** *** Trackbars and logical values *)

Lemma trackbar_of_name (n : string) (value count pos : Z) :
  In (n, value, count) (trackbars WINDOW_NAME) ->
  (n = "Angle" -> count = 360) /\
  (n = "Translate X" -> count = 300) /\
  (n = "Translate Y" -> count = 200).
Proof.
  rewrite trackbars_created. simpl.
  intros [H|[H|[H|[H|[]]]]]; inversion H; subst;
    repeat split; intros E; try reflexivity; discriminate E.
Qed.

Lemma reachable_iff (n : string) (value count pos : Z) :
  In (n, value, count) (trackbars WINDOW_NAME) ->
  (forall v c, In (n, v, c) (trackbars WINDOW_NAME) -> c = count) ->
  (reachable_position n pos <-> 0 <= pos <= count).
Proof.
  intros Hin Huniq. unfold reachable_position. split.
  - intros (v & c & Hin' & Hpos). rewrite <- (Huniq v c Hin'). exact Hpos.
  - intros Hpos. exists value, count. auto.
Qed.

(** X3.  For any configuration entry, the positions of the trackbar
    [setup_ui] creates for it, offset by [min_val], are exactly the
    values from [min_val] to [max_val].  So the Angle, Translate X and
    Translate Y values of a frame range over [-180, 180], [-150, 150]
    and [-100, 100], each value coming from one position. *)
Theorem offset_positions_cover_the_range (pos : Z) :
  (forall window config,
     0 <= pos <= snd (setup_trackbar window config) <->
     min_val config <= logical_value config pos <= max_val config) /\
  (reachable_position "Angle" pos <-> -180 <= logical_value Angle pos <= 180) /\
  (reachable_position "Translate X" pos <->
   -150 <= logical_value Translate_X pos <= 150) /\
  (reachable_position "Translate Y" pos <->
   -100 <= logical_value Translate_Y pos <= 100) /\
  (forall image mode inp,
     transform_matrix image mode inp =
     let '((m00, m01, m02), (m10, m11, m12)) :=
       getRotationMatrix2D (center image)
         (IZR (logical_value Angle (angle_pos inp)))
         (fst (scale_and_text mode (scale_pos inp))) in
     ((m00, m01, m02 + IZR (logical_value Translate_X (tx_pos inp))),
      (m10, m11, m12 + IZR (logical_value Translate_Y (ty_pos inp))))%R).
Proof.
  split.
  { intros window config. unfold setup_trackbar, logical_value. cbn [snd].
    destruct (min_val config =? 0) eqn:E.
    - apply Z.eqb_eq in E. rewrite E. lia.
    - lia. }
  assert (Hu : forall n v c, In (n, v, c) (trackbars WINDOW_NAME) ->
               (n = "Angle" -> c = 360) /\ (n = "Translate X" -> c = 300) /\
               (n = "Translate Y" -> c = 200)).
  { intros n v c. apply trackbar_of_name. exact pos. }
  split.
  { rewrite (reachable_iff "Angle" 180 360).
    - unfold logical_value. cbn [min_val Angle]. lia.
    - rewrite trackbars_created. simpl. auto.
    - intros v c Hin. apply (Hu _ _ _ Hin). reflexivity. }
  split.
  { rewrite (reachable_iff "Translate X" 150 300).
    - unfold logical_value. cbn [min_val Translate_X]. lia.
    - rewrite trackbars_created. simpl. auto.
    - intros v c Hin. apply (Hu _ _ _ Hin). reflexivity. }
  split.
  { rewrite (reachable_iff "Translate Y" 100 200).
    - unfold logical_value. cbn [min_val Translate_Y]. lia.
    - rewrite trackbars_created. simpl. auto.
    - intros v c Hin. apply (Hu _ _ _ Hin). reflexivity. }
  intros image mode inp. reflexivity.
Qed.

(** *** When the matrix can be inverted *)

(** X5.  The linear part of the matrix of a frame is singular exactly
    in Similarity mode with the Scale trackbar at position 0: in Rigid
    mode, and in Similarity mode from position 1 on, its determinant is
    not 0, whatever the angle. *)
Theorem singular_only_at_scale_zero (image : ndarray Pixel) (mode : Z)
        (inp : FrameInput) :
  det (transform_matrix image mode inp) = 0%R <->
  mode <> 0 /\ scale_pos inp = 0.
Proof.
  assert (Hdet : det (transform_matrix image mode inp) =
                 (fst (scale_and_text mode (scale_pos inp)) *
                  fst (scale_and_text mode (scale_pos inp)))%R).
  { rewrite transform_matrix_unfold. unfold det. cbv zeta.
    set (a := (IZR (angle_pos inp - 180) * PI / 180)%R).
    set (s := fst (scale_and_text mode (scale_pos inp))).
    pose proof (sin2_cos2 a) as Hsc. unfold Rsqr in Hsc.
    replace (cos a * s * (cos a * s) - sin a * s * - (sin a * s))%R
      with ((sin a * sin a + cos a * cos a) * (s * s))%R by ring.
    rewrite Hsc. ring. }
  rewrite Hdet, <- scale_zero_iff. split.
  - intros H. apply Rmult_integral in H. tauto.
  - intros ->. ring.
Qed.

(** *** Warps that land on the pixel grid *)

Lemma scale_at_100 (mode : Z) : fst (scale_and_text mode 100) = 1%R.
Proof. unfold scale_and_text. destruct (mode =? 0); simpl; lra. Qed.

(** When the inverse matrix has integer entries every output pixel is
    a source pixel or the border value. *)
Lemma warp_on_grid (src : ndarray Pixel) (bv : Pixel) (M : Mat23)
      (a b e c d f : Z) :
  invertAffineTransform M =
    ((IZR a, IZR b, IZR e), (IZR c, IZR d, IZR f)) ->
  forall y x,
    pixel (warpAffine src M (cols src, rows src) bv) y x =
    if in_bounds src y x
    then Some (fetch src bv (c * x + d * y + f) (a * x + b * y + e))
    else None.
Proof.
  intros Hinv y x. unfold warpAffine. rewrite Hinv. unfold pixel at 1.
  change (in_bounds (mk_ndarray _ _ _) y x) with (in_bounds src y x).
  cbn [data fst snd].
  replace (IZR a * IZR x + IZR b * IZR y + IZR e)%R
    with (IZR (a * x + b * y + e)) by (rewrite !plus_IZR, !mult_IZR; ring).
  replace (IZR c * IZR x + IZR d * IZR y + IZR f)%R
    with (IZR (c * x + d * y + f)) by (rewrite !plus_IZR, !mult_IZR; ring).
  rewrite sample_linear_on_grid. reflexivity.
Qed.

Lemma translation_matrix (image : ndarray Pixel) (mode x_pos y_pos key : Z) :
  transform_matrix image mode (mk_input 180 x_pos y_pos 100 key) =
  ((1, 0, IZR (x_pos - 150)), (0, 1, IZR (y_pos - 100)))%R.
Proof.
  rewrite transform_matrix_unfold. cbv zeta.
  cbn [angle_pos tx_pos ty_pos scale_pos]. rewrite scale_at_100.
  change (IZR (180 - 180)) with 0%R.
  replace (0 * PI / 180)%R with 0%R by field.
  rewrite cos_0, sin_0. apply mat23_eq; field.
Qed.

Lemma invert_translation (tx ty : Z) :
  invertAffineTransform ((1, 0, IZR tx), (0, 1, IZR ty))%R =
  ((IZR 1, IZR 0, IZR (- tx)), (IZR 0, IZR 1, IZR (- ty))).
Proof.
  unfold invertAffineTransform.
  destruct (Req_EM_T (1 * 1 - 0 * 0) 0) as [E|E]; [lra|].
  rewrite !opp_IZR. apply mat23_eq; field.
Qed.

(** X6.  With the Angle and Scale trackbars where [setup_ui] put them,
    a frame is the image shifted by the two translations: output pixel
    [(y, x)] is source pixel [(y - ty, x - tx)], and the dark background
    (47, 53, 66) where that falls outside the image. *)
Theorem translation_shifts_the_image (image : ndarray Pixel)
        (mode x_pos y_pos key y x : Z) :
  pixel (transformed_image image mode (mk_input 180 x_pos y_pos 100 key)) y x =
  if in_bounds image y x
  then Some (fetch image (47, 53, 66)
                   (y - logical_value Translate_Y y_pos)
                   (x - logical_value Translate_X x_pos))
  else None.
Proof.
  unfold transformed_image. rewrite translation_matrix.
  rewrite (warp_on_grid image BACKGROUND _ _ _ _ _ _ _
             (invert_translation (x_pos - 150) (y_pos - 100))).
  unfold logical_value. cbn [min_val Translate_X Translate_Y].
  destruct (in_bounds image y x); [|reflexivity].
  do 2 f_equal; lia.
Qed.

(** The matrix of a quarter turn, in real arithmetic. *)
Lemma quarter_turn_matrix (image : ndarray Pixel) (mode key : Z) :
  transform_matrix image mode (mk_input 270 150 100 100 key) =
  ((0, 1, fst (center image) - snd (center image)),
   (-1, 0, fst (center image) + snd (center image)))%R.
Proof.
  rewrite transform_matrix_unfold. cbv zeta.
  cbn [angle_pos tx_pos ty_pos scale_pos]. rewrite scale_at_100.
  change (IZR (270 - 180)) with 90%R.
  change (IZR (150 - 150)) with 0%R. change (IZR (100 - 100)) with 0%R.
  replace (90 * PI / 180)%R with (PI / 2)%R by field.
  rewrite cos_PI2, sin_PI2. unfold center. cbn [fst snd].
  apply mat23_eq; field.
Qed.

(** X7.  With the Angle trackbar at 270 (90 degrees) and the others
    where [setup_ui] put them, the frame of a square image is the
    image turned a quarter counter-clockwise and moved down by one row:
    output pixel [(y, x)] is source pixel [(x, cols - y)], so the top row
    of the frame is background. *)
Theorem quarter_turn (image : ndarray Pixel) (mode key : Z) :
  rows image = cols image ->
  forall y x,
    pixel (transformed_image image mode (mk_input 270 150 100 100 key)) y x =
    if in_bounds image y x
    then Some (fetch image (47, 53, 66) x (cols image - y))
    else None.
Proof.
  intros Hsq y x. unfold transformed_image. rewrite quarter_turn_matrix.
  assert (Hinv : invertAffineTransform
                   ((0, 1, fst (center image) - snd (center image)),
                    (-1, 0, fst (center image) + snd (center image)))%R =
                 ((IZR 0, IZR (-1), IZR (cols image)),
                  (IZR 1, IZR 0, IZR 0))).
  { unfold invertAffineTransform, center. cbn [fst snd]. rewrite Hsq.
    destruct (Req_EM_T (0 * 0 - 1 * -1) 0) as [E|E]; [lra|].
    apply mat23_eq; field. }
  rewrite (warp_on_grid image BACKGROUND _ _ _ _ _ _ _ Hinv).
  destruct (in_bounds image y x); [|reflexivity].
  do 2 f_equal; lia.
Qed.

(** The matrix of a half turn, in real arithmetic. *)
Lemma half_turn_matrix (image : ndarray Pixel) (mode a_pos key : Z) :
  a_pos = 0 \/ a_pos = 360 ->
  transform_matrix image mode (mk_input a_pos 150 100 100 key) =
  ((-1, 0, IZR (cols image)), (0, -1, IZR (rows image)))%R.
Proof.
  intros Ha. rewrite transform_matrix_unfold. cbv zeta.
  cbn [angle_pos tx_pos ty_pos scale_pos]. rewrite scale_at_100.
  change (IZR (150 - 150)) with 0%R. change (IZR (100 - 100)) with 0%R.
  destruct Ha as [-> | ->].
  - change (IZR (0 - 180)) with (-180)%R.
    replace (-180 * PI / 180)%R with (- PI)%R by field.
    rewrite cos_neg, sin_neg, cos_PI, sin_PI. apply mat23_eq; field.
  - change (IZR (360 - 180)) with 180%R.
    replace (180 * PI / 180)%R with PI by field.
    rewrite cos_PI, sin_PI. apply mat23_eq; field.
Qed.

(** X8.  The two ends of the Angle trackbar (-180 and 180 degrees) give
    the same frame: the image turned upside down about its centre and
    moved by one pixel.  Output pixel [(y, x)] is source pixel
    [(rows - y, cols - x)], so the top row and the left column of the
    frame are background. *)
Theorem half_turn_at_both_ends (image : ndarray Pixel) (mode key a_pos : Z) :
  a_pos = 0 \/ a_pos = 360 ->
  forall y x,
    pixel (transformed_image image mode (mk_input a_pos 150 100 100 key)) y x =
    if in_bounds image y x
    then Some (fetch image (47, 53, 66) (rows image - y) (cols image - x))
    else None.
Proof.
  intros Ha y x. unfold transformed_image. rewrite (half_turn_matrix _ _ _ _ Ha).
  assert (Hinv : invertAffineTransform
                   ((-1, 0, IZR (cols image)), (0, -1, IZR (rows image)))%R =
                 ((IZR (-1), IZR 0, IZR (cols image)),
                  (IZR 0, IZR (-1), IZR (rows image)))).
  { unfold invertAffineTransform.
    destruct (Req_EM_T (-1 * -1 - 0 * 0) 0) as [E|E]; [lra|].
    apply mat23_eq; field. }
  rewrite (warp_on_grid image BACKGROUND _ _ _ _ _ _ _ Hinv).
  destruct (in_bounds image y x); [|reflexivity].
  do 2 f_equal; lia.
Qed.

Lemma quarter_turn_witness :
  pixel (transformed_image square_image RIGID (mk_input 270 150 100 100 (-1))) 1 0
  = Some (1, 100, 201) /\
  pixel (transformed_image square_image RIGID (mk_input 270 150 100 100 (-1))) 0 1
  = Some (47, 53, 66).
Proof.
  split; rewrite (quarter_turn square_image RIGID (-1) eq_refl); reflexivity.
Defined.

Lemma half_turn_at_both_ends_witness :
  pixel (transformed_image sample_image SIMILARITY (mk_input 360 150 100 100 109)) 1 2
  = Some (11, 101, 201) /\
  pixel (transformed_image sample_image SIMILARITY (mk_input 0 150 100 100 109)) 0 2
  = Some (47, 53, 66).
Proof.
  split.
  - rewrite (half_turn_at_both_ends sample_image SIMILARITY 109 360
               (or_intror eq_refl)). reflexivity.
  - rewrite (half_turn_at_both_ends sample_image SIMILARITY 109 0
               (or_introl eq_refl)). reflexivity.
Defined.

(** *** Keys *)

Lemma low_byte_periodic (raw k : Z) :
  Z.land (raw + 256 * k) 255 = Z.land raw 255.
Proof.
  change 255 with (Z.ones 8). rewrite !Z.land_ones by lia.
  change (2 ^ 8) with 256. rewrite (Z.mul_comm 256 k).
  apply Z.mod_add. lia.
Qed.

(** X9.  Only the low byte of what [cv2.waitKey] returns counts: key
    codes that differ by a multiple of 256 are handled alike, and the
    code -1 of "no key" neither ends the loop nor changes the mode. *)
Theorem only_the_low_byte_counts (raw k mode : Z) :
  handle_key (raw + 256 * k) mode = handle_key raw mode /\
  handle_key (-1) mode = Some mode.
Proof.
  split; [|reflexivity].
  unfold handle_key. rewrite low_byte_periodic. reflexivity.
Qed.

Lemma handle_key_no_escape (k mode : Z) :
  low_byte_is KEY_ESC k = false ->
  handle_key k mode =
  Some (if low_byte_is KEY_M k then 1 - mode else mode).
Proof.
  unfold low_byte_is, handle_key. intros ->. 
  destruct (Z.land k 255 =? KEY_M); reflexivity.
Qed.

(** X10.  As long as ESC is not pressed, the mode after a run of keys
    depends only on how often 'm' was pressed: an even number of presses
    gives back the mode the run started from, an odd number the other
    one.  The loop that has read such keys is still polling, in that
    mode. *)
Theorem mode_is_parity_of_presses (keys : list Z) (mode : Z) :
  Forall (fun k => low_byte_is KEY_ESC k = false) keys ->
  mode_after mode keys =
    Some (if Nat.even (presses_of_m keys) then mode else 1 - mode) /\
  (forall env image (inputs : list FrameInput) (w : World env),
     map wait_key inputs = keys ->
     fst (loop_from image mode inputs w) =
     Polling (if Nat.even (presses_of_m keys) then mode else 1 - mode)).
Proof.
  intros Hesc.
  assert (Hrun : mode_after mode keys =
                 Some (if Nat.even (presses_of_m keys) then mode else 1 - mode)).
  { revert mode. induction Hesc as [|k rest Hk _ IH]; intros mode.
    - reflexivity.
    - cbn [mode_after]. rewrite (handle_key_no_escape k mode Hk).
      rewrite IH. unfold presses_of_m. cbn [filter].
      destruct (low_byte_is KEY_M k); [|reflexivity].
      cbn [List.length]. rewrite Nat.even_succ, <- Nat.negb_even.
      destruct (Nat.even (List.length (filter (low_byte_is KEY_M) rest)));
        cbn [negb]; f_equal; lia. }
  split; [exact Hrun|].
  intros env image inputs w Hkeys.
  rewrite loop_from_mode, Hkeys, Hrun. reflexivity.
Qed.

Lemma mode_is_parity_of_presses_witness :
  mode_after RIGID [109; 255; 365; 77; 109] = Some SIMILARITY.
Proof.
  apply (proj1 (mode_is_parity_of_presses [109; 255; 365; 77; 109] RIGID
                  ltac:(repeat constructor))).
Defined.

(** *** The loop *)

Lemma shown_frame_shape (env : Env) (image : ndarray Pixel) (mode : Z)
      (inp : FrameInput) :
  shape (shown_frame env image mode inp) = shape image.
Proof. reflexivity. Qed.

Lemma loop_from_trace {env : Env} (image : ndarray Pixel)
      (inputs : list FrameInput) (mode : Z) (w : World env) :
  exists frames,
    trace (snd (loop_from image mode inputs w)) =
      (trace w ++ map (EvImshow WINDOW_NAME) frames)%list /\
    (List.length frames <= List.length inputs)%nat /\
    Forall (fun f => shape f = shape image) frames /\
    fs (snd (loop_from image mode inputs w)) = fs w /\
    (Forall (fun inp => low_byte_is KEY_ESC (wait_key inp) = false) inputs ->
     List.length frames = List.length inputs).
Proof.
  revert mode w. induction inputs as [|inp rest IH]; intros mode w.
  - exists []. cbn. rewrite app_nil_r. repeat split; auto.
  - cbn [loop_from]. unfold bind, emit.
    destruct (handle_key (wait_key inp) mode) as [mode'|] eqn:Hk.
    + destruct (IH mode' (mk_world (fs w)
                  (trace w ++ [EvImshow WINDOW_NAME (shown_frame env image mode inp)])))
        as (frames & Htr & Hlen & Hshape & Hfs & Hall).
      exists (shown_frame env image mode inp :: frames).
      split; [rewrite Htr; cbn [trace map]; rewrite <- app_assoc; reflexivity|].
      split; [cbn [List.length]; lia|].
      split; [constructor; [apply shown_frame_shape|exact Hshape]|].
      split; [exact Hfs|].
      intros Hno. inversion Hno; subst. cbn [List.length]. f_equal. auto.
    + exists [shown_frame env image mode inp]. cbn [snd trace fs map ret].
      split; [reflexivity|]. split; [cbn [List.length]; lia|].
      split; [constructor; [apply shown_frame_shape|constructor]|].
      split; [reflexivity|].
      intros Hno. inversion Hno as [|? ? Hk' _]; subst. exfalso.
      rewrite (handle_key_no_escape _ mode Hk') in Hk. discriminate Hk.
Qed.

(** X11.  [main_loop] prints its one line of instructions and then only
    shows frames: at most one per turn (exactly one while ESC is not
    pressed), each of the shape of the source image, all in the one
    window.  It leaves every file as it was. *)
Theorem main_loop_only_shows_frames {env : Env} (image : ndarray Pixel)
        (inputs : list FrameInput) (w : World env) :
  exists msg frames,
    trace (snd (main_loop image inputs w)) =
      (trace w ++ EvPrint msg :: map (EvImshow WINDOW_NAME) frames)%list /\
    (List.length frames <= List.length inputs)%nat /\
    (Forall (fun inp => low_byte_is KEY_ESC (wait_key inp) = false) inputs ->
     List.length frames = List.length inputs) /\
    Forall (fun f => shape f = shape image) frames /\
    fs (snd (main_loop image inputs w)) = fs w.
Proof.
  unfold main_loop, bind, print, emit.
  destruct (loop_from_trace image inputs initial_mode
              (mk_world (fs w)
                 (trace w ++ [EvPrint (String (ascii_of_nat 10)
                    "Adjust sliders. Press 'm' to switch modes. Press 'ESC' to quit.")])))
    as (frames & Htr & Hlen & Hshape & Hfs & Hall).
  eexists. exists frames.
  split; [rewrite Htr; cbn [trace]; rewrite <- app_assoc; reflexivity|].
  split; [exact Hlen|]. split; [exact Hall|]. split; [exact Hshape|exact Hfs].
Qed.

(** X12.  Whatever was read before, the turn that reads ESC is the last
    one: its frame is still shown, and what the user does afterwards is
    never looked at. *)
Theorem escape_ends_the_loop {env : Env} (image : ndarray Pixel) (mode : Z)
        (before after : list FrameInput) (inp : FrameInput) (w : World env) :
  low_byte_is KEY_ESC (wait_key inp) = true ->
  loop_from image mode (before ++ inp :: after) w =
    loop_from image mode (before ++ [inp]) w /\
  fst (loop_from image mode (before ++ inp :: after) w) = Exited.
Proof.
  intros Hesc.
  assert (Hk : forall m, handle_key (wait_key inp) m = None).
  { intros m. unfold handle_key. unfold low_byte_is in Hesc. rewrite Hesc.
    reflexivity. }
  revert mode w. induction before as [|b rest IH]; intros mode w.
  - cbn [app loop_from]. unfold bind, emit. rewrite Hk. split; reflexivity.
  - cbn [app loop_from]. unfold bind, emit.
    destruct (handle_key (wait_key b) mode) as [mode'|].
    + apply IH.
    + split; reflexivity.
Qed.

Lemma escape_ends_the_loop_witness :
  fst (loop_from sample_image RIGID
         (mk_input 180 150 100 100 109 :: mk_input 180 150 100 100 27 ::
          mk_input 0 0 0 0 109 :: nil) empty_world) = Exited.
Proof.
  apply (proj2 (@escape_ends_the_loop offline_env sample_image RIGID
                  [mk_input 180 150 100 100 109] [mk_input 0 0 0 0 109]
                  (mk_input 180 150 100 100 27) empty_world eq_refl)).
Defined.

(** *** Image acquisition *)






(** X14.  [get_image] changes no file but the one it is asked for. *)
Theorem other_files_untouched {env : Env} (filename other : string)
        (w : World env) :
  other <> filename ->
  fs (snd (get_image filename w)) other = fs w other.
Proof.
  intros Hne. apply String.eqb_neq in Hne. run_io.
  io_cases; rewrite ?Hne; reflexivity.
Qed.

Lemma other_files_untouched_witness :
  fs (snd (get_image IMAGE_FILENAME corrupt_disk)) "notes.txt" =
  Some (Some square_image).
Proof.
  rewrite (@other_files_untouched online_env IMAGE_FILENAME "notes.txt"
             corrupt_disk).
  - reflexivity.
  - discriminate.
Defined.

(** X15.  A file that is there but does not decode is never fetched
    again: [get_image] sends no request and hands the placeholder to
    [cv2.imwrite], which overwrites the file (the old content stays only
    if nothing can be written).  When [cv2.imwrite] returns, the file is
    read once more and what that gives is returned; for a name without
    a writer the [cv2.error] leaves [get_image] before that read. *)
Theorem corrupt_file_is_overwritten {env : Env} (filename : string)
        (w : World env) (b : Bytes env) :
  fs w filename = Some b -> imdecode env b = None ->
  fs (snd (get_image filename w)) filename =
    match imencode env filename (img_placeholder env) with
    | Some b' => Some b'
    | None => Some b
    end /\
  fst (get_image filename w) =
    match imencode env filename (img_placeholder env) with
    | Some b' => Returned (imdecode env b')
    | None => if has_writer env filename then Returned None
              else Raised NO_WRITER
    end /\
  trace (snd (get_image filename w)) =
    (trace w ++
     [ EvImread filename;
       EvPrint ("Failed to load '" ++ filename ++ "'. Creating a placeholder.");
       EvImwrite filename (img_placeholder env) ] ++
     match fst (get_image filename w) with
     | Returned _ => [EvImread filename]
     | Raised _ => []
     end)%list.
Proof.
  intros Hfile Hdec. run_io. rewrite Hfile. cbn [negb fs trace fst snd].
  rewrite Hfile, Hdec. cbn [fs trace fst snd].
  destruct (imencode env filename (img_placeholder env)) as [b'|];
    cbn [fs trace fst snd].
  - rewrite String.eqb_refl, <- !app_assoc. repeat split.
  - destruct (has_writer env filename); cbn [fs trace fst snd];
      rewrite ?Hfile, ?Hdec, <- ?app_assoc; repeat split.
Qed.

Lemma corrupt_file_is_overwritten_witness :
  fs (snd (get_image IMAGE_FILENAME corrupt_disk)) IMAGE_FILENAME =
    Some (Some (img_placeholder online_env)) /\
  fst (get_image IMAGE_FILENAME corrupt_disk) =
    Returned (Some (img_placeholder online_env)).
Proof.
  destruct (@corrupt_file_is_overwritten online_env IMAGE_FILENAME corrupt_disk
              None eq_refl eq_refl) as (Hfs & Hres & _).
  split; [exact Hfs|exact Hres].
Defined.



(** X17.  The caption of the placeholder is drawn with its origin at
    [placeholder_text_org], which centres the text box that
    [cv2.getTextSize] reports: the free space to its left and to its
    right differ by at most one pixel, and so do the space above it and
    the space below its baseline. *)
Theorem caption_is_centred (env : Env) :
  let tw := fst (getTextSize env "Sample Image" 2 3) in
  let th := snd (getTextSize env "Sample Image" 2 3) in
  let x0 := fst (placeholder_text_org env) in
  let y0 := snd (placeholder_text_org env) in
  (forall y x,
     data (img_placeholder env) y x =
     text_pixels env "Sample Image" (x0, y0) 2 TEXT_COLOR 3
                 (full (400, 600) BACKGROUND) y x) /\
  0 <= (600 - (x0 + tw)) - x0 <= 1 /\
  0 <= (400 - y0) - (y0 - th) <= 1.
Proof.
  cbv zeta. unfold placeholder_text_org, img_placeholder. cbn [fst snd].
  destruct (getTextSize env "Sample Image" 2 3) as [tw th]. cbn [fst snd].
  split; [intros y x; reflexivity|].
  pose proof (Z.div_mod (600 - tw) 2 ltac:(lia)).
  pose proof (Z.mod_pos_bound (600 - tw) 2 ltac:(lia)).
  pose proof (Z.div_mod (400 + th) 2 ltac:(lia)).
  pose proof (Z.mod_pos_bound (400 + th) 2 ltac:(lia)).
  lia.
Qed.

(** *** The whole run *)

Lemma exited_iff_escape (keys : list Z) (mode : Z) :
  mode_after mode keys = None <->
  existsb (low_byte_is KEY_ESC) keys = true.
Proof.
  revert mode. induction keys as [|k rest IH]; intros mode.
  - cbn. split; intros H; discriminate H.
  - cbn [mode_after existsb].
    destruct (handle_key_cases k mode) as [[Hk E]|[[Hk E]|(Hk & _ & E)]];
      rewrite E; unfold low_byte_is at 1.
    + rewrite Hk, Z.eqb_refl. cbn. tauto.
    + rewrite Hk. change (KEY_M =? KEY_ESC) with false. cbn [orb]. apply IH.
    + apply Z.eqb_neq in Hk. rewrite Hk. cbn [orb]. apply IH.
Qed.

(** X18.  When [get_image] returns an image, [main] opens the window,
    creates the four trackbars in the order of the configuration, each
    at an initial position inside its range, and runs the loop, which
    only shows frames.  It closes the windows, prints its last line and
    returns exactly when ESC has been read; until then it is in the
    loop and does neither.  The files stay as [get_image] left them. *)
Theorem main_with_image {env : Env} (inputs : list FrameInput)
        (w : World env) (image : ndarray Pixel) :
  fst (get_image IMAGE_FILENAME w) = Returned (Some image) ->
  exists msg frames,
    trace (snd (main inputs w)) =
      (trace (snd (get_image IMAGE_FILENAME w)) ++
       [ EvNamedWindow WINDOW_NAME;
         EvCreateTrackbar "Angle" WINDOW_NAME 180 360;
         EvCreateTrackbar "Translate X" WINDOW_NAME 150 300;
         EvCreateTrackbar "Translate Y" WINDOW_NAME 100 200;
         EvCreateTrackbar "Scale" WINDOW_NAME 100 180;
         EvPrint msg ] ++
       map (EvImshow WINDOW_NAME) frames ++
       match fst (main inputs w) with
       | Finished => [ EvDestroyAllWindows; EvPrint "Application closed." ]
       | _ => []
       end)%list /\
    fst (main inputs w) =
      (match mode_after initial_mode (map wait_key inputs) with
       | None => Finished
       | Some mode => Looping mode
       end) /\
    (fst (main inputs w) = Finished <->
     existsb (low_byte_is KEY_ESC) (map wait_key inputs) = true) /\
    (List.length frames <= List.length inputs)%nat /\
    Forall (fun f => shape f = shape image) frames /\
    fs (snd (main inputs w)) = fs (snd (get_image IMAGE_FILENAME w)).
Proof.
  intros Himg. unfold main, bind.
  destruct (get_image IMAGE_FILENAME w) as [r w1]. cbn [fst snd] in *. subst r.
  unfold main_loop, setup_ui, bind, print, emit.
  cbn [fold_left trackbars map TRACKBARS_CONFIG setup_trackbar snd
       name default_pos min_val max_val Angle Translate_X Translate_Y Scale
       Z.eqb fs trace fst snd ret].
  match goal with
  | |- context [loop_from image initial_mode inputs ?w0] =>
      destruct (loop_from_trace image inputs initial_mode w0)
        as (frames & Htr & Hlen & Hshape & Hfs & _);
      pose proof (loop_from_mode image inputs initial_mode w0) as Hend;
      destruct (loop_from image initial_mode inputs w0) as [r2 w2]
  end.
  cbn [fst snd fs trace] in *.
  pose proof (exited_iff_escape (map wait_key inputs) initial_mode) as Hesc.
  eexists. exists frames.
  destruct (mode_after initial_mode (map wait_key inputs)) as [m|];
    subst r2; cbn [fst snd fs trace ret].
  - split; [rewrite app_nil_r, Htr, <- !app_assoc; reflexivity|].
    split; [reflexivity|]. split.
    { split; [intros H; discriminate H|].
      intros H. apply Hesc in H. discriminate H. }
    split; [exact Hlen|]. split; [exact Hshape|exact Hfs].
  - split; [rewrite Htr, <- !app_assoc; reflexivity|].
    split; [reflexivity|]. split.
    { split; [intros _; apply Hesc; reflexivity|reflexivity]. }
    split; [exact Hlen|]. split; [exact Hshape|exact Hfs].
Qed.

Lemma main_with_image_witness :
  fst (main [mk_input 180 150 100 100 109; mk_input 180 150 100 100 27]
            sample_world) = Finished /\
  fst (main [mk_input 180 150 100 100 109] sample_world) = Looping SIMILARITY.
Proof.
  split.
  - destruct (@main_with_image offline_env
                [mk_input 180 150 100 100 109; mk_input 180 150 100 100 27]
                sample_world sample_image eq_refl)
      as (msg & frames & _ & Hend & _).
    exact Hend.
  - destruct (@main_with_image offline_env [mk_input 180 150 100 100 109]
                sample_world sample_image eq_refl)
      as (msg & frames & _ & Hend & _).
    exact Hend.
Defined.

End VisualizerMore.
